(** * SIV, a simple file-system integrity verifier

    A shallow embedding of [siv.cpp] and the properties of its snapshot
    format, its path preconditions and its comparison of two snapshots.

    Conventions of the embedding:
    - [std::string] is [string]; a position of type [size_t] is a [nat] and
      [string::npos] is [None];
    - [std::map<string,string>] is the ordered finite map [SMap.t string]
      (keys compared byte-wise, iteration in increasing key order);
    - the operating system is a record [OS] of capabilities (file existence
      and contents, directory walk, [stat], the user and group databases, the
      clock, the two digests followed by the hex encoder);
    - the program runs in a monad [M] over the global variables [info], [pw],
      [gr], the standard output and the trace of file-system events; a run
      ends by returning, by [exit], by an uncaught C++ exception or in
      undefined behaviour;
    - a [directory_entry] carries its path, whether it is a directory, and
      the last write time the file system has for it, as a [time_t];
      [entry.last_write_time()] asks the file system for the status of the
      path again, and throws [filesystem_error] exactly when [stat] on that
      path fails; a walk either yields all its entries or throws when the
      iterator is built;
    - an output stream accepts everything written to it, and the text of an
      output file is read off the trace ([written]);
    - the counters [fileNum], [dirNum] are unbounded integers. *)

From Stdlib Require Import String Ascii List ZArith Lia Bool Arith.
From Stdlib Require Import Sorted SetoidList.
From Stdlib Require Import FMapList FMapFacts OrderedTypeEx DecimalString.
Import ListNotations.
Open Scope string_scope.

Module SMap := FMapList.Make(String_as_OT).
Module SMapF := FMapFacts.WFacts_fun String_as_OT SMap.
Module SMapO := FMapFacts.OrdProperties SMap.

(** ** Strings *)

Definition tab : ascii := "009"%char.
Definition newline : ascii := "010"%char.
Definition TAB : string := String tab "".
Definition NL : string := String newline "".

(** [s.find(pat)]: the first position at which [pat] occurs in [s]. *)
Fixpoint find (s pat : string) : option nat :=
  if prefix pat s then Some 0
  else match s with
       | EmptyString => None
       | String _ s' => option_map S (find s' pat)
       end.

(** [s.find(c)] for a character. *)
Fixpoint find_char (s : string) (c : ascii) : option nat :=
  match s with
  | EmptyString => None
  | String a s' =>
      if Ascii.eqb a c then Some 0 else option_map S (find_char s' c)
  end.

Fixpoint drop (n : nat) (s : string) : string :=
  match n, s with
  | S n', String _ s' => drop n' s'
  | _, _ => s
  end.

Fixpoint take (n : nat) (s : string) : string :=
  match n, s with
  | S n', String a s' => String a (take n' s')
  | _, _ => EmptyString
  end.

(** [s.substr(pos, count)]; the result [None] is the [std::out_of_range]
    thrown when [pos > s.size()]. *)
Definition substr (s : string) (pos : nat) (count : option nat)
  : option string :=
  if Nat.ltb (String.length s) pos then None
  else Some (match count with
             | None => drop pos s
             | Some n => take n (drop pos s)
             end).

(** [s.erase(remove(s.begin(), s.end(), c), s.end())]. *)
Fixpoint remove_char (c : ascii) (s : string) : string :=
  match s with
  | EmptyString => EmptyString
  | String a s' =>
      if Ascii.eqb a c then remove_char c s' else String a (remove_char c s')
  end.

(** The splitting loop of [verify]: [temp] collects the current field and is
    pushed on [v] at every tab and once more after the last character. *)
Fixpoint split_loop (line temp : string) (v : list string) : list string :=
  match line with
  | EmptyString => v ++ [temp]
  | String c rest =>
      if Ascii.eqb c tab then split_loop rest "" (v ++ [temp])
      else split_loop rest (temp ++ String c "") v
  end.

Definition split_tab (line : string) : list string := split_loop line "" [].

(** [std::to_string] on an integer. *)
Definition to_string (z : Z) : string := NilZero.string_of_int (Z.to_int z).

Definition oct_digit (n : N) : ascii :=
  ascii_of_N (48 + n).

Fixpoint oct_loop (fuel : nat) (n : N) (acc : string) : string :=
  match fuel with
  | O => acc
  | S fuel' =>
      let acc' := String (oct_digit (n mod 8)) acc in
      if (n / 8 =? 0)%N then acc' else oct_loop fuel' (n / 8) acc'
  end.

(** [oss << oct << n] for a non-negative [int]: at most 11 octal digits. *)
Definition oct (n : Z) : string := oct_loop 11 (Z.to_N n) "".

(** ** The operating system and the state of a run *)

Record stat_t := { st_size : Z; st_uid : Z; st_gid : Z; st_mode : Z }.
Record passwd := { pw_name : string }.
Record group := { gr_name : string }.

Record directory_entry :=
  { path : string; is_directory : bool; last_write_time : Z }.

Record OS := {
  (** [fs::exists] *)
  fs_exists : string -> bool;
  (** the contents an [ifstream] reads; [None] when it cannot be opened *)
  fs_read : string -> option string;
  (** the entries of [fs::recursive_directory_iterator]; [None] when the
      construction throws [filesystem_error] *)
  fs_walk : string -> option (list directory_entry);
  (** [stat]; [None] when it fails and leaves the buffer untouched *)
  os_stat : string -> option stat_t;
  (** [getpwuid] and [getgrgid]; [None] is the null pointer *)
  os_getpwuid : Z -> option passwd;
  os_getgrgid : Z -> option group;
  (** [gmtime] followed by [strftime] with ["%Y-%m-%d %H:%M:%S"] *)
  os_strftime : Z -> string;
  (** the digests, followed by [HexEncoder] *)
  md5_hex : string -> string;
  sha1_hex : string -> string;
  (** [high_resolution_clock::now()] in seconds, after so many events *)
  os_clock : nat -> Z
}.

Inductive event :=
| EvOpenIn (p : string)
| EvOpenOut (p : string)
| EvWrite (p : string) (text : string)
| EvWalk (d : string)
| EvStat (p : string)
| EvHashRead (p : string).

Record state := {
  info : stat_t;
  pw : option passwd;
  gr : option group;
  cout : list string;
  trace : list event
}.

Definition initial_state : state :=
  {| info := {| st_size := 0; st_uid := 0; st_gid := 0; st_mode := 0 |};
     pw := None; gr := None; cout := []; trace := [] |}.

Inductive exn := out_of_range | filesystem_error.

Inductive result (A : Type) :=
| Ok (a : A) (s : state)
| Exit (status : Z) (s : state)
| Uncaught (e : exn) (s : state)
| Undefined (s : state).

Arguments Ok {A} a s.
Arguments Exit {A} status s.
Arguments Uncaught {A} e s.
Arguments Undefined {A} s.

Definition M (A : Type) : Type := state -> result A.

Definition ret {A} (a : A) : M A := fun s => Ok a s.

Definition bind {A B} (m : M A) (k : A -> M B) : M B :=
  fun s => match m s with
           | Ok a s' => k a s'
           | Exit c s' => Exit c s'
           | Uncaught e s' => Uncaught e s'
           | Undefined s' => Undefined s'
           end.

Notation "x <- m ;; k" := (bind m (fun x => k))
  (at level 61, m at next level, right associativity).
Notation "m ;;; k" := (bind m (fun _ => k))
  (at level 61, right associativity).

Definition EXIT_SUCCESS : Z := 0.
Definition EXIT_FAILURE : Z := 1.

Definition exit {A} (status : Z) : M A := fun s => Exit status s.
Definition throw {A} (e : exn) : M A := fun s => Uncaught e s.
Definition undefined {A} : M A := fun s => Undefined s.

Definition add_event (e : event) (s : state) : state :=
  {| info := info s; pw := pw s; gr := gr s;
     cout := cout s; trace := trace s ++ [e] |}.

Definition add_cout (msg : string) (s : state) : state :=
  {| info := info s; pw := pw s; gr := gr s;
     cout := cout s ++ [msg]; trace := trace s |}.

Definition log (e : event) : M unit := fun s => Ok tt (add_event e s).

(** [cout << msg << endl] *)
Definition cout_endl (msg : string) : M unit :=
  fun s => Ok tt (add_cout msg s).

(** The text an output file holds after a trace: what was written to it
    since it was last opened for writing. *)
Fixpoint written_from (tr : list event) (p : string) (acc : option string)
  : option string :=
  match tr with
  | [] => acc
  | EvOpenOut q :: tr' =>
      written_from tr' p (if String.eqb q p then Some "" else acc)
  | EvWrite q text :: tr' =>
      written_from tr' p
        (if String.eqb q p then option_map (fun c => c ++ text) acc else acc)
  | _ :: tr' => written_from tr' p acc
  end.

Definition written (tr : list event) (p : string) : option string :=
  written_from tr p None.

(** ** Input streams and the snapshot reader *)

Record istream := { buf : string; eofbit : bool; failbit : bool }.

(** The characters up to the next newline, the text after it, and whether
    the newline was found. *)
Fixpoint extract_line (b : string) : string * string * bool :=
  match b with
  | EmptyString => ("", "", false)
  | String c rest =>
      if Ascii.eqb c newline then ("", rest, true)
      else let '(l, r, d) := extract_line rest in (String c l, r, d)
  end.

(** [getline(strm, line)]: a stream that is not good fails and leaves [line]
    as it was; otherwise [line] is replaced, and reaching the end of the
    file without extracting anything sets [failbit]. The boolean is the
    stream's truth value after the call. *)
Definition getline (strm : istream) (line : string)
  : istream * string * bool :=
  if eofbit strm || failbit strm then
    ({| buf := buf strm; eofbit := eofbit strm; failbit := true |}, line, false)
  else
    let '(l, rest, delim) := extract_line (buf strm) in
    if delim then ({| buf := rest; eofbit := false; failbit := false |}, l, true)
    else
      let failed := match l with EmptyString => true | _ => false end in
      ({| buf := ""; eofbit := true; failbit := failed |}, l, negb failed).

(** An [ifstream] on a file: its contents, or a failed stream. *)
Definition stream_of (content : option string) : istream :=
  match content with
  | Some text => {| buf := text; eofbit := false; failbit := false |}
  | None => {| buf := ""; eofbit := false; failbit := true |}
  end.

(** The four header lines of the verification file ([verify], the reads
    before the path checks). [None] is the [std::out_of_range] of
    [line.substr]. The result is the stream, [line], [dirPath], [hashF]. *)
Definition read_header (vFile : istream)
  : option (istream * string * string * string) :=
  let line := "" in
  let '(vFile, line, _) := getline vFile line in
  let '(vFile, line, _) := getline vFile line in
  match substr line 11 None with
  | None => None
  | Some dirPath =>
      let '(vFile, line, _) := getline vFile line in
      match substr line 15 None with
      | None => None
      | Some hashF =>
          let '(vFile, line, _) := getline vFile line in
          Some (vFile, line, dirPath, hashF)
      end
  end.

(** [while (getline(vFile, line)) { vFileDict[fileName] = line; }]; every
    successful [getline] consumes the stream, so [fuel] bounds the loop
    ([read_loop_fuel] shows that the fuel of [read_vFileDict] is enough).
    [substr] from position 0 never throws. *)
Fixpoint read_loop (fuel : nat) (vFile : istream) (line : string)
    (vFileDict : SMap.t string) : SMap.t string :=
  match fuel with
  | O => vFileDict
  | S fuel' =>
      let '(vFile', line', ok) := getline vFile line in
      if ok then
        match substr line' 0 (find_char line' tab) with
        | Some fileName =>
            read_loop fuel' vFile' line' (SMap.add fileName line' vFileDict)
        | None => vFileDict
        end
      else vFileDict
  end.

Definition read_vFileDict (vFile : istream) (line : string) : SMap.t string :=
  read_loop (S (String.length (buf vFile))) vFile line (SMap.empty string).

(** The reader of a verification file as [verify] runs it on a text. *)
Definition decode (text : string)
  : option (string * string * SMap.t string) :=
  match read_header (stream_of (Some text)) with
  | None => None
  | Some (vFile, line, dirPath, hashF) =>
      Some (dirPath, hashF, read_vFileDict vFile line)
  end.

(** ** Comparison of the two dictionaries *)

Record ChangeReport := {
  changedFiles : list string;
  deletedFiles : list string;
  newFiles : list string;
  warnings : list string
}.

Definition mem_key (k : string) (d : SMap.t string) : bool :=
  match SMap.find k d with Some _ => true | None => false end.

(** [d[k]] read on a map: the value, or the empty string of a fresh slot. *)
Definition at_key (d : SMap.t string) (k : string) : string :=
  match SMap.find k d with Some v => v | None => "" end.

(** First loop over [vFileDict]: changed and deleted files. *)
Definition classify_baseline (vFileDict dirFileDict : SMap.t string)
  : list string * list string :=
  fold_left
    (fun '(changed, deleted) '(fileName, vFileLine) =>
       if mem_key fileName dirFileDict then
         let dirFileLine := at_key dirFileDict fileName in
         if negb (String.eqb vFileLine dirFileLine)
         then ((changed ++ [fileName])%list, deleted)
         else (changed, deleted)
       else (changed, (deleted ++ [fileName])%list))
    (SMap.elements vFileDict) ([], []).

(** Second loop, over [dirFileDict]: new files. *)
Definition classify_current (vFileDict dirFileDict : SMap.t string)
  : list string :=
  fold_left
    (fun new '(fileName, _) =>
       if mem_key fileName vFileDict then new else (new ++ [fileName])%list)
    (SMap.elements dirFileDict) [].

(** The six comparisons on the split lines of one changed file; an index
    past the end of a vector is undefined behaviour, here [None]. *)
Definition field_warning (fileName what : string) (i : nat)
    (vFileLineSplit dirFileLineSplit : list string)
  : option (list string) :=
  match nth_error vFileLineSplit i, nth_error dirFileLineSplit i with
  | Some old, Some new =>
      Some (if negb (String.eqb old new)
            then [fileName ++ what ++ old ++ " " ++ new]
            else [])
  | _, _ => None
  end.

Definition field_names : list (nat * string) :=
  [ (1, " file size is different: ");
    (2, " owner is different: ");
    (3, " group is different: ");
    (4, " access rights are different: ");
    (5, " last modified time is different: ");
    (6, " hash is different: ") ].

Fixpoint field_warnings (fileName : string) (fields : list (nat * string))
    (vFileLineSplit dirFileLineSplit : list string) : option (list string) :=
  match fields with
  | [] => Some []
  | (i, what) :: rest =>
      match field_warning fileName what i vFileLineSplit dirFileLineSplit with
      | None => None
      | Some w =>
          match field_warnings fileName rest vFileLineSplit dirFileLineSplit with
          | None => None
          | Some ws => Some (w ++ ws)%list
          end
      end
  end.

(** The body of the loop over [changedFiles]. *)
Definition changed_warnings (vFileDict dirFileDict : SMap.t string)
    (fileName : string) : option (list string) :=
  let vFileLine := at_key vFileDict fileName in
  let dirFileLine := at_key dirFileDict fileName in
  field_warnings fileName field_names
    (split_tab vFileLine) (split_tab dirFileLine).

Fixpoint changed_loop (vFileDict dirFileDict : SMap.t string)
    (changed : list string) (warnings : list string) : option (list string) :=
  match changed with
  | [] => Some warnings
  | fileName :: rest =>
      match changed_warnings vFileDict dirFileDict fileName with
      | None => None
      | Some w => changed_loop vFileDict dirFileDict rest (warnings ++ w)%list
      end
  end.

(** The comparison of [verify], from the two dictionaries to the lists the
    report is printed from. *)
Definition diff (vFileDict dirFileDict : SMap.t string) : option ChangeReport :=
  let '(changed, deleted) := classify_baseline vFileDict dirFileDict in
  let new := classify_current vFileDict dirFileDict in
  let warnings :=
    (map (fun f => f ++ " is deleted")%string deleted
     ++ map (fun f => f ++ " is new")%string new)%list in
  match changed_loop vFileDict dirFileDict changed warnings with
  | None => None
  | Some warnings =>
      Some {| changedFiles := changed; deletedFiles := deleted;
              newFiles := new; warnings := warnings |}
  end.

(** ** The program *)

Definition set_info (i : stat_t) (s : state) : state :=
  {| info := i; pw := pw s; gr := gr s; cout := cout s; trace := trace s |}.
Definition set_pw (p : option passwd) (s : state) : state :=
  {| info := info s; pw := p; gr := gr s; cout := cout s; trace := trace s |}.
Definition set_gr (g : option group) (s : state) : state :=
  {| info := info s; pw := pw s; gr := g; cout := cout s; trace := trace s |}.

Definition S_IRWXU : Z := 448.
Definition S_IRWXG : Z := 56.
Definition S_IRWXO : Z := 7.

Definition when (c : bool) (m : M unit) : M unit := if c then m else ret tt.

(** [cout << msg << endl; exit(EXIT_FAILURE);] *)
Definition fail_with {A} (msg : string) : M A :=
  cout_endl msg ;;; exit EXIT_FAILURE.

(** [s.find(pat) != string::npos] *)
Definition contains (s pat : string) : bool :=
  match find s pat with Some _ => true | None => false end.

(** [file << text] on the output stream opened on [p]. *)
Definition write (p text : string) : M unit := log (EvWrite p text).
(** [file << text << endl] *)
Definition write_endl (p text : string) : M unit := write p (text ++ NL).

Section Program.

Variable os : OS.

Definition now : M Z := fun s => Ok (os_clock os (List.length (trace s))) s.

(** [stat(path, &info)] on the global buffer. *)
Definition stat (p : string) : M unit :=
  log (EvStat p) ;;;
  fun s => Ok tt (match os_stat os p with
                  | Some i => set_info i s
                  | None => s
                  end).

Definition getpwuid (uid : Z) : M unit :=
  fun s => Ok tt (set_pw (os_getpwuid os uid) s).
Definition getgrgid (gid : Z) : M unit :=
  fun s => Ok tt (set_gr (os_getgrgid os gid) s).

Definition get_info : M stat_t := fun s => Ok (info s) s.

(** [pw->pw_name]; dereferencing the null pointer is undefined. *)
Definition pw_pw_name : M string :=
  fun s => match pw s with
           | Some p => Ok (pw_name p) s
           | None => Undefined s
           end.

Definition ifstream_open (p : string) : M istream :=
  log (EvOpenIn p) ;;; ret (stream_of (fs_read os p)).

Definition ofstream_open (p : string) : M unit := log (EvOpenOut p).

Definition recursive_directory_iterator (d : string)
  : M (list directory_entry) :=
  log (EvWalk d) ;;;
  match fs_walk os d with
  | Some entries => ret entries
  | None => throw filesystem_error
  end.

(** compute the message digest of a file *)
Definition hashFile (p hashF : string) : M string :=
  log (EvHashRead p) ;;;
  let content := match fs_read os p with Some c => c | None => "" end in
  if String.eqb hashF "md5" then ret (md5_hex os content)
  else if String.eqb hashF "sha1" then ret (sha1_hex os content)
  else fail_with "Invalid hash function".

(** [entry.last_write_time()]: the library asks the file system for the
    status of the path of the entry once more, and throws
    [filesystem_error] when that fails; otherwise the time is the one the
    entry has. *)
Definition entry_last_write_time (entry : directory_entry) : M Z :=
  match os_stat os (path entry) with
  | Some _ => ret (last_write_time entry)
  | None => throw filesystem_error
  end.

(** create a tsv string for a file or directory *)
Definition createTsvString (entry : directory_entry) (hashF : string)
  : M string :=
  stat (path entry) ;;;
  let line := path entry ++ TAB in
  i <- get_info ;;
  let line := line ++ (to_string (st_size i) ++ TAB) in
  i <- get_info ;;
  getpwuid (st_uid i) ;;;
  name <- pw_pw_name ;;
  let line := line ++ name in
  let line := line ++ TAB in
  i <- get_info ;;
  getgrgid (st_gid i) ;;;
  name <- pw_pw_name ;;
  let line := line ++ name in
  let line := line ++ TAB in
  i <- get_info ;;
  let statchmod := Z.land (st_mode i) (Z.lor (Z.lor S_IRWXU S_IRWXG) S_IRWXO) in
  let line := line ++ (oct statchmod ++ TAB) in
  time <- entry_last_write_time entry ;;
  let date := os_strftime os time in
  let line := line ++ date in
  let line := line ++ TAB in
  line <- (if negb (is_directory entry)
           then h <- hashFile (path entry) hashF ;; ret (line ++ h)
           else ret (line ++ "directory")) ;;
  let line := line ++ NL in
  ret line.

Definition snapshot_columns : string :=
  "File Name" ++ TAB ++ "File Size" ++ TAB ++ "Owner" ++ TAB ++ "Group"
  ++ TAB ++ "Access Rights" ++ TAB ++ "Last Modified" ++ TAB ++ "Hash".

(** The loop of [initialize] over the directory. *)
Fixpoint initialize_loop (entries : list directory_entry)
    (vFilePath hashF : string) (fileNum dirNum : Z) : M (Z * Z) :=
  match entries with
  | [] => ret (fileNum, dirNum)
  | entry :: rest =>
      line <- createTsvString entry hashF ;;
      write vFilePath line ;;;
      if is_directory entry
      then initialize_loop rest vFilePath hashF fileNum (dirNum + 1)
      else initialize_loop rest vFilePath hashF (fileNum + 1) dirNum
  end.

(** initialize the monitoring of a directory *)
Definition initialize (dirPath vFilePath rFilePath hashF : string) : M unit :=
  start <- now ;;
  when (negb (fs_exists os dirPath))
    (fail_with "The specified of directory does not exist") ;;;
  when (contains vFilePath dirPath)
    (fail_with
       "The path of verification file is inside the monitored directory") ;;;
  when (contains rFilePath dirPath)
    (fail_with "The path of report file is inside the monitored directory") ;;;
  when (String.eqb vFilePath rFilePath)
    (fail_with
       "The path of verification file is the same as the path of report file")
  ;;;
  when (negb (contains rFilePath ".txt"))
    (fail_with "The report file is not a text file with .txt extension") ;;;
  ofstream_open vFilePath ;;;
  write_endl vFilePath "SIV Verification File" ;;;
  write_endl vFilePath ("Directory: " ++ dirPath) ;;;
  write_endl vFilePath ("Hash Function: " ++ hashF) ;;;
  write_endl vFilePath snapshot_columns ;;;
  entries <- recursive_directory_iterator dirPath ;;
  counts <- initialize_loop entries vFilePath hashF 0 0 ;;
  let '(fileNum, dirNum) := counts in
  ofstream_open rFilePath ;;;
  write_endl rFilePath "SIV Report File" ;;;
  write_endl rFilePath ("Directory: " ++ dirPath) ;;;
  write_endl rFilePath ("Verification File: " ++ vFilePath) ;;;
  write_endl rFilePath ("Number of parsed Files: " ++ to_string fileNum) ;;;
  write_endl rFilePath
    ("Number of parsed Directories: " ++ to_string dirNum) ;;;
  write_endl rFilePath ("Hash Function: " ++ hashF) ;;;
  finish <- now ;;
  let seconds := to_string (finish - start) in
  write_endl rFilePath ("Time of Initialization (in seconds): " ++ seconds).

(** The loop of [verify] over the directory. *)
Fixpoint verify_loop (entries : list directory_entry) (hashF : string)
    (dirFileDict : SMap.t string) (fileNum dirNum : Z)
  : M (SMap.t string * Z * Z) :=
  match entries with
  | [] => ret (dirFileDict, fileNum, dirNum)
  | entry :: rest =>
      let fileName := path entry in
      line <- createTsvString entry hashF ;;
      let line := remove_char newline line in
      let dirFileDict := SMap.add fileName line dirFileDict in
      if is_directory entry
      then verify_loop rest hashF dirFileDict fileNum (dirNum + 1)
      else verify_loop rest hashF dirFileDict (fileNum + 1) dirNum
  end.

Fixpoint write_lines (p : string) (lines : list string) : M unit :=
  match lines with
  | [] => ret tt
  | l :: rest => write_endl p l ;;; write_lines p rest
  end.

Definition size_string {A} (l : list A) : string :=
  to_string (Z.of_nat (List.length l)).

(** verify the integrity of a monitored directory against a verification
    file *)
Definition verify (vFilePath rFilePath : string) : M unit :=
  start <- now ;;
  when (negb (fs_exists os vFilePath))
    (fail_with "The verification file does not exist") ;;;
  vFile <- ifstream_open vFilePath ;;
  match read_header vFile with
  | None => throw out_of_range
  | Some (vFile, line, dirPath, hashF) =>
      when (contains vFilePath dirPath)
        (fail_with
           "The path of verification file is inside the monitored directory")
      ;;;
      when (contains rFilePath dirPath)
        (fail_with
           "The path of report file is inside the monitored directory") ;;;
      when (String.eqb vFilePath rFilePath)
        (fail_with
           "The path of verification file is the same as the path of report file")
      ;;;
      when (negb (contains rFilePath ".txt"))
        (fail_with "The report file is not a text file with .txt extension")
      ;;;
      let vFileDict := read_vFileDict vFile line in
      entries <- recursive_directory_iterator dirPath ;;
      scanned <- verify_loop entries hashF (SMap.empty string) 0 0 ;;
      let '(dirFileDict, fileNum, dirNum) := scanned in
      match diff vFileDict dirFileDict with
      | None => undefined
      | Some r =>
          ofstream_open rFilePath ;;;
          write_endl rFilePath "SIV Report File" ;;;
          write_endl rFilePath ("Directory: " ++ dirPath) ;;;
          write_endl rFilePath ("Verification File: " ++ vFilePath) ;;;
          write_endl rFilePath ("Hash Function: " ++ hashF) ;;;
          write_endl rFilePath
            ("Number of Parsed Files: " ++ to_string fileNum) ;;;
          write_endl rFilePath
            ("Number of Parsed Directories: " ++ to_string dirNum) ;;;
          write_endl rFilePath
            ("Number of Deleted Files: " ++ size_string (deletedFiles r)) ;;;
          write_endl rFilePath
            ("Number of New Files: " ++ size_string (newFiles r)) ;;;
          write_endl rFilePath
            ("Number of Changed Files: " ++ size_string (changedFiles r)) ;;;
          write_endl rFilePath "Warnings:" ;;;
          write_lines rFilePath (warnings r)
      end
  end.

(** print the help message *)
Definition help : M unit :=
  cout_endl "Usage: siv <-i|-v|-h> -D <monitored_directory> -V <verification_file> " ;;;
  cout_endl "       -R <report_file> -H <hash-function>" ;;;
  cout_endl "" ;;;
  cout_endl "Options:" ;;;
  cout_endl "  -i                       : starts siv in initialization mode" ;;;
  cout_endl "  -v                       : starts siv in verification mode" ;;;
  cout_endl "  -h                       : help mode" ;;;
  cout_endl "  -D <monitored_directory> : the path to the directory to be monitored" ;;;
  cout_endl "  -V <verification_file>   : the path to the verification file" ;;;
  cout_endl "  -R <report_file_>        : the path to the report file" ;;;
  cout_endl "  -H <hash-function>       : the hash function to be used" ;;;
  cout_endl "" ;;;
  cout_endl "Examples: " ;;;
  cout_endl "siv -i -D /home/user/monitored -V /home/user/verification -R /home/user/report.txt -H md5" ;;;
  cout_endl "siv -v -V /home/user/verification -R /home/user/report.txt" ;;;
  cout_endl "siv -h" ;;;
  cout_endl "" ;;;
  cout_endl "Notes: " ;;;
  cout_endl "- the verification file and the report file have to be outside the monitored directory" ;;;
  cout_endl "- the report file has to be a .txt file" ;;;
  cout_endl "- the hash function has to be either md5 or sha1" ;;;
  cout_endl "- the monitored directory has to be an absolute path" ;;;
  cout_endl "- the verification file has to be an absolute path" ;;;
  cout_endl "- the report file has to be an absolute path" ;;;
  cout_endl "- line 4 of the verification file shows the headers for the tsv format below.".

(** The local variables of [main] that the option loop fills. *)
Record locals := {
  mode : Z;
  dirPath : string;
  vFilePath : string;
  rFilePath : string;
  hashF : string
}.

Definition main_init : locals :=
  {| mode := 0%Z; dirPath := ""; vFilePath := ""; rFilePath := ""; hashF := "" |}.

(** The [switch] on one result of [getopt], with its [optarg]. *)
Definition main_switch (opt : ascii) (optarg : string) (l : locals)
  : M locals :=
  let mk m d v r h :=
    {| mode := m; dirPath := d; vFilePath := v; rFilePath := r; hashF := h |} in
  if Ascii.eqb opt "i" then
    ret (mk 1%Z (dirPath l) (vFilePath l) (rFilePath l) (hashF l))
  else if Ascii.eqb opt "v" then
    ret (mk 2%Z (dirPath l) (vFilePath l) (rFilePath l) (hashF l))
  else if Ascii.eqb opt "h" then
    ret (mk 3%Z (dirPath l) (vFilePath l) (rFilePath l) (hashF l))
  else if Ascii.eqb opt "D" then
    ret (mk (mode l) optarg (vFilePath l) (rFilePath l) (hashF l))
  else if Ascii.eqb opt "V" then
    ret (mk (mode l) (dirPath l) optarg (rFilePath l) (hashF l))
  else if Ascii.eqb opt "R" then
    ret (mk (mode l) (dirPath l) (vFilePath l) optarg (hashF l))
  else if Ascii.eqb opt "H" then
    ret (mk (mode l) (dirPath l) (vFilePath l) (rFilePath l) optarg)
  else fail_with "Invalid command line argument".

(** [while ((opt = getopt(...)) != -1)] over the options [getopt] yields. *)
Fixpoint main_options (opts : list (ascii * string)) (l : locals) : M locals :=
  match opts with
  | [] => ret l
  | (opt, optarg) :: rest =>
      l' <- main_switch opt optarg l ;; main_options rest l'
  end.

(** main function: parse command line arguments and call the appropriate
    function *)
Definition main (opts : list (ascii * string)) : M unit :=
  l <- main_options opts main_init ;;
  let mode := mode l in
  let dirPath := dirPath l in
  let vFilePath := vFilePath l in
  let rFilePath := rFilePath l in
  let hashF := hashF l in
  when (mode =? 0)%Z
    (fail_with
       "Please specify which mode you want to use (-i or -v). Consult -h for more info")
  ;;;
  when ((mode =? 1)%Z && String.eqb dirPath "")
    (fail_with "Please specify a directory. Consult -h for more info") ;;;
  when ((mode =? 1)%Z && String.eqb vFilePath "")
    (fail_with "Please specify a verification file. Consult -h for more info")
  ;;;
  when ((mode =? 1)%Z && String.eqb rFilePath "")
    (fail_with "Please specify a report file. Consult -h for more info") ;;;
  when ((mode =? 1)%Z && String.eqb hashF "")
    (fail_with "Please specify a hash function. Consult -h for more info") ;;;
  when ((mode =? 2)%Z && String.eqb vFilePath "")
    (fail_with "Please specify a verification file. Consult -h for more info")
  ;;;
  when ((mode =? 2)%Z && String.eqb rFilePath "")
    (fail_with "Please specify a report file. Consult -h for more info") ;;;
  when ((mode =? 1)%Z && negb (String.eqb hashF "md5")
        && negb (String.eqb hashF "sha1"))
    (fail_with
       "Please specify a valid hash function. Consult -h for more info") ;;;
  when (negb (mode =? 1)%Z && negb (mode =? 2)%Z && negb (mode =? 3)%Z)
    (fail_with "Please specify a valid siv mode. Consult -h for more info") ;;;
  when (mode =? 3)%Z (help ;;; exit EXIT_SUCCESS) ;;;
  when (mode =? 1)%Z
    (initialize dirPath vFilePath rFilePath hashF ;;;
     cout_endl "Initialization complete!" ;;;
     cout_endl ("Verification file: " ++ vFilePath) ;;;
     cout_endl ("Report file: " ++ rFilePath) ;;;
     exit EXIT_SUCCESS) ;;;
  when (mode =? 2)%Z
    (verify vFilePath rFilePath ;;;
     cout_endl "Verification complete!" ;;;
     cout_endl ("Report file: " ++ rFilePath) ;;;
     exit EXIT_SUCCESS).

End Program.

(** ** Notions the properties are stated with *)

(** One captured entry, as the seven text fields of its line. *)
Record FileMetadata := {
  fm_path : string;
  sizeBytes : string;
  ownerName : string;
  groupName : string;
  permissionBits : string;
  lastModified : string;
  contentDigest : string
}.

Definition fields (r : FileMetadata) : list string :=
  [fm_path r; sizeBytes r; ownerName r; groupName r; permissionBits r;
   lastModified r; contentDigest r].

(** The line of an entry, without its final newline. *)
Definition tsv_line (r : FileMetadata) : string :=
  fm_path r ++ TAB ++ sizeBytes r ++ TAB ++ ownerName r ++ TAB
  ++ groupName r ++ TAB ++ permissionBits r ++ TAB ++ lastModified r ++ TAB
  ++ contentDigest r.

Record Snapshot := {
  monitored : string;
  hashName : string;
  entries : list FileMetadata
}.

(** Lines written one after the other, each followed by a newline. *)
Definition unlines (lines : list string) : string :=
  fold_right (fun l acc => (l ++ NL) ++ acc) "" lines.

(** The text [initialize] writes to the verification file for a snapshot. *)
Definition encode (s : Snapshot) : string :=
  ("SIV Verification File" ++ NL)
  ++ (("Directory: " ++ monitored s) ++ NL)
  ++ (("Hash Function: " ++ hashName s) ++ NL)
  ++ (snapshot_columns ++ NL)
  ++ unlines (map tsv_line (entries s)).

Definition has_char (c : ascii) (s : string) : bool :=
  match find_char s c with Some _ => true | None => false end.

(** No field holds a tab or a newline. *)
Definition clean_entry (r : FileMetadata) : bool :=
  forallb (fun f => negb (has_char tab f) && negb (has_char newline f))
          (fields r).

Definition clean_snapshot (s : Snapshot) : bool :=
  negb (has_char newline (monitored s))
  && negb (has_char newline (hashName s))
  && forallb clean_entry (entries s).

(** The key a line is stored under: its text before the first tab. *)
Definition key_of (line : string) : string :=
  match find_char line tab with
  | Some n => take n line
  | None => line
  end.

(** The dictionary the reading loop builds from a list of lines. *)
Definition add_line (d : SMap.t string) (l : string) : SMap.t string :=
  SMap.add (key_of l) l d.

Definition dict_of_lines (lines : list string) : SMap.t string :=
  fold_left add_line lines (SMap.empty string).

(** A stream in good state on a text. *)
Definition good_stream (text : string) : istream :=
  {| buf := text; eofbit := false; failbit := false |}.

(** What the spec calls a sub-path: [p] is [dir] or lies below it. *)
Definition ends_with_slash (s : string) : bool :=
  match drop (String.length s - 1) s with
  | String "/" EmptyString => true
  | _ => false
  end.

Definition sub_path (dir p : string) : bool :=
  prefix dir p
  && (String.eqb p dir || ends_with_slash dir
      || prefix "/" (drop (String.length dir) p)).

Definition path_conflict (dir vFilePath rFilePath : string) : Prop :=
  sub_path dir vFilePath = true \/ sub_path dir rFilePath = true
  \/ vFilePath = rFilePath.

Definition path_conflict_messages : list string :=
  [ "The path of verification file is inside the monitored directory";
    "The path of report file is inside the monitored directory";
    "The path of verification file is the same as the path of report file" ].

(** The run stops from state [s] with a path-conflict message and nothing
    else done. *)
Definition path_conflict_failure (r : result unit) (s : state) : Prop :=
  exists msg, In msg path_conflict_messages
              /\ r = Exit EXIT_FAILURE (add_cout msg s).

(** A store of entries: every line has exactly seven tab-separated fields,
    the first of which is the key it is stored under. *)
Definition wf_line (k line : string) : bool :=
  match split_tab line with
  | [k'; _; _; _; _; _; _] => String.eqb k k'
  | _ => false
  end.




(** ** Example environments *)

Definition example_entries : list directory_entry :=
  [ {| path := "/data/sub"; is_directory := true; last_write_time := 5 |};
    {| path := "/data/a.txt"; is_directory := false; last_write_time := 7 |} ].

(** A machine on which [/data] exists, owned by user [alice] (uid 1000) and
    group [staff] (gid 50), and whose verification file [verification] has
    contents [snapshot]. *)
Definition example_os (data_exists : bool) (verification : string)
    (snapshot : option string) : OS := {|
  fs_exists := fun p =>
    (data_exists && String.eqb p "/data") || String.eqb p verification;
  fs_read := fun p =>
    if String.eqb p verification then snapshot
    else if String.eqb p "/data/a.txt" then Some "hello" else None;
  fs_walk := fun d =>
    if String.eqb d "/data" then Some example_entries else None;
  os_stat := fun p =>
    Some {| st_size := 5; st_uid := 1000; st_gid := 50; st_mode := 33188 |};
  os_getpwuid := fun u =>
    if (u =? 1000)%Z then Some {| pw_name := "alice" |} else None;
  os_getgrgid := fun g =>
    if (g =? 50)%Z then Some {| gr_name := "staff" |} else None;
  os_strftime := fun t => "1970-01-01 00:00:0" ++ to_string t;
  md5_hex := fun c => "5D41402ABC4B2A76B9719D911017C592";
  sha1_hex := fun c => "AAF4C61DDCC5E8A2DABEDE0F3B482CD9AEA9434D";
  os_clock := fun n => Z.of_nat n
|}.

Definition example_header (dir hash : string) : string :=
  ("SIV Verification File" ++ NL) ++ (("Directory: " ++ dir) ++ NL)
  ++ (("Hash Function: " ++ hash) ++ NL) ++ (snapshot_columns ++ NL).

(** The same machine with another directory tree. *)
Definition with_walk (os : OS) (es : list directory_entry) : OS := {|
  fs_exists := fs_exists os;
  fs_read := fs_read os;
  fs_walk := fun _ => Some es;
  os_stat := os_stat os;
  os_getpwuid := os_getpwuid os;
  os_getgrgid := os_getgrgid os;
  os_strftime := os_strftime os;
  md5_hex := md5_hex os;
  sha1_hex := sha1_hex os;
  os_clock := os_clock os
|}.

(** ** Snapshot texts *)

(** The fields of a line, by recursion on the line, and their inverse. *)
Fixpoint split_fields (line : string) : list string :=
  match line with
  | EmptyString => [""]
  | String c rest =>
      if Ascii.eqb c tab then "" :: split_fields rest
      else match split_fields rest with
           | h :: t => String c h :: t
           | [] => [String c ""]
           end
  end.

Fixpoint join_tab (fs : list string) : string :=
  match fs with
  | [] => ""
  | [f] => f
  | f :: rest => f ++ TAB ++ join_tab rest
  end.

(** The lines of a text, as successive [getline] calls deliver them. *)
Fixpoint lines_from (text cur : string) : list string :=
  match text with
  | EmptyString => match cur with EmptyString => [] | _ => [cur] end
  | String c rest =>
      if Ascii.eqb c newline then cur :: lines_from rest ""
      else lines_from rest (cur ++ String c "")
  end.

(** What the spec asks of a snapshot text: the four header lines, then
    lines of exactly seven tab-separated fields. *)
Definition well_formed_text (text : string) : bool :=
  match lines_from text "" with
  | title :: dir :: hash :: columns :: data =>
      String.eqb title "SIV Verification File"
      && prefix "Directory: " dir
      && prefix "Hash Function: " hash
      && String.eqb columns snapshot_columns
      && forallb (fun l => Nat.eqb (List.length (split_tab l)) 7) data
  | _ => false
  end.

(** The result of decoding holds the snapshot: its two header fields, every
    entry under its path with its seven fields, and no other path. *)
Definition reproduces (s : Snapshot)
    (out : option (string * string * SMap.t string)) : Prop :=
  exists d,
    out = Some (monitored s, hashName s, d)
    /\ (forall r, In r (entries s) ->
          exists line, SMap.find (fm_path r) d = Some line
                       /\ split_tab line = fields r)
    /\ (forall k, SMap.In k d -> exists r, In r (entries s) /\ fm_path r = k).

Definition example_entry (p digest : string) : FileMetadata :=
  {| fm_path := p; sizeBytes := "5"; ownerName := "alice";
     groupName := "alice"; permissionBits := "644";
     lastModified := "1970-01-01 00:00:07"; contentDigest := digest |}.

Definition example_snapshot (p : string) : Snapshot :=
  {| monitored := "/data"; hashName := "md5";
     entries := [example_entry p "5D41402ABC4B2A76B9719D911017C592"] |}.

(** A text with no header, whose only data line has two fields. *)
Definition headerless_text : string :=
  ("these are the notes" ++ NL) ++ ("of a meeting that" ++ NL)
  ++ ("took place on a Monday" ++ NL) ++ ("in the morning" ++ NL)
  ++ (("a" ++ TAB ++ "b") ++ NL).

(** ** The three classes of the comparison *)

Definition is_changed (dirFileDict : SMap.t string) (kv : string * string)
  : bool :=
  mem_key (fst kv) dirFileDict
  && negb (String.eqb (snd kv) (at_key dirFileDict (fst kv))).

Definition is_absent (d : SMap.t string) (kv : string * string) : bool :=
  negb (mem_key (fst kv) d).

Definition keys_where (f : string * string -> bool) (d : SMap.t string)
  : list string :=
  map fst (filter f (SMap.elements d)).


(** Two stores of the examples: [a.txt] with mode 644 and [b.txt], then
    [a.txt] with mode 600 and a new digest, and [c.txt]. *)
Definition example_baseline : SMap.t string :=
  dict_of_lines
    [ tsv_line (example_entry "/data/b.txt" "Y");
      tsv_line (example_entry "/data/a.txt" "X") ].

Definition example_current : SMap.t string :=
  dict_of_lines
    [ tsv_line (example_entry "/data/c.txt" "Z");
      tsv_line {| fm_path := "/data/a.txt"; sizeBytes := "5";
                  ownerName := "alice"; groupName := "alice";
                  permissionBits := "600";
                  lastModified := "1970-01-01 00:00:07";
                  contentDigest := "W" |} ].

(** ** The captured line *)

(** The digest field of an entry, when [hashFile] returns. *)
Definition digest_field (os : OS) (entry : directory_entry) (hashF : string)
  : option string :=
  if is_directory entry then Some "directory"
  else if String.eqb hashF "md5" then
    Some (md5_hex os (match fs_read os (path entry) with
                      | Some c => c | None => "" end))
  else if String.eqb hashF "sha1" then
    Some (sha1_hex os (match fs_read os (path entry) with
                       | Some c => c | None => "" end))
  else None.

(** The record [createTsvString] puts on a line; the group field is filled
    from [pw], as the owner field is. *)
Definition captured (os : OS) (entry : directory_entry) (i : stat_t) (p : passwd)
    (digest : string) : FileMetadata :=
  {| fm_path := path entry;
     sizeBytes := to_string (st_size i);
     ownerName := pw_name p;
     groupName := pw_name p;
     permissionBits := oct (Z.land (st_mode i) 511);
     lastModified := os_strftime os (last_write_time entry);
     contentDigest := digest |}.

(** The state [createTsvString] leaves behind. *)
Definition captured_state (os : OS) (entry : directory_entry) (i : stat_t) (p : passwd)
    (s : state) : state :=
  let s1 := set_gr (os_getgrgid os (st_gid i))
              (set_pw (Some p) (set_info i (add_event (EvStat (path entry)) s)))
  in if is_directory entry then s1 else add_event (EvHashRead (path entry)) s1.

(** The record of an entry on which [stat], [getpwuid] and the digest all
    succeed, and the records of a whole walk. *)
Definition capture (os : OS) (hashF : string) (entry : directory_entry)
  : option FileMetadata :=
  match os_stat os (path entry) with
  | Some i =>
      match os_getpwuid os (st_uid i) with
      | Some p =>
          match digest_field os entry hashF with
          | Some digest => Some (captured os entry i p digest)
          | None => None
          end
      | None => None
      end
  | None => None
  end.

Fixpoint capture_all (os : OS) (hashF : string) (es : list directory_entry)
  : option (list FileMetadata) :=
  match es with
  | [] => Some []
  | entry :: rest =>
      match capture os hashF entry, capture_all os hashF rest with
      | Some r, Some rs => Some (r :: rs)
      | _, _ => None
      end
  end.




Definition verify_report (dirPath vFilePath hashF : string)
    (fileNum dirNum : Z) (r : ChangeReport) : list string :=
  "SIV Report File"
  :: ("Directory: " ++ dirPath)
  :: ("Verification File: " ++ vFilePath)
  :: ("Hash Function: " ++ hashF)
  :: ("Number of Parsed Files: " ++ to_string fileNum)
  :: ("Number of Parsed Directories: " ++ to_string dirNum)
  :: ("Number of Deleted Files: " ++ size_string (deletedFiles r))
  :: ("Number of New Files: " ++ size_string (newFiles r))
  :: ("Number of Changed Files: " ++ size_string (changedFiles r))
  :: "Warnings:"
  :: warnings r.

(** ** Notions of the further properties *)

(** The report of a comparison that found nothing. *)
Definition empty_report : ChangeReport :=
  {| changedFiles := []; deletedFiles := []; newFiles := []; warnings := [] |}.

(** The last line of a list that is stored under a key. *)
Definition last_with_key (k : string) (lines : list string) : option string :=
  List.find (fun l => String.eqb (key_of l) k) (rev lines).

(** The final state of a run, whatever its outcome. *)
Definition final_state {A} (r : result A) : state :=
  match r with
  | Ok _ s => s
  | Exit _ s => s
  | Uncaught _ s => s
  | Undefined s => s
  end.

(** An event that creates or changes a file other than those of [allowed]. *)
Definition writes_within (allowed : list string) (e : event) : Prop :=
  match e with
  | EvOpenOut q => In q allowed
  | EvWrite q _ => In q allowed
  | _ => True
  end.

(** A run from trace [t] only added events, and wrote within [allowed]. *)
Definition extends_within {A} (allowed : list string) (t : list event)
    (r : result A) : Prop :=
  exists evs, trace (final_state r) = (t ++ evs)%list
              /\ Forall (writes_within allowed) evs.

(** A run from output [c] printed nothing unless it called [exit], and then
    it printed one line and the status is [EXIT_FAILURE]. *)
Definition quiet_or_failed {A} (c : list string) (r : result A) : Prop :=
  match r with
  | Exit status s' =>
      status = EXIT_FAILURE /\ exists msg, cout s' = (c ++ [msg])%list
  | _ => cout (final_state r) = c
  end.

(** A text without tab and newline. *)
Definition clean_text (s : string) : bool :=
  negb (has_char tab s) && negb (has_char newline s).

Definition is_oct_digit (c : ascii) : bool :=
  (48 <=? N_of_ascii c)%N && (N_of_ascii c <=? 55)%N.

Fixpoint all_chars (f : ascii -> bool) (s : string) : bool :=
  match s with
  | EmptyString => true
  | String c s' => f c && all_chars f s'
  end.


(** The same machine with another [stat]. *)
Definition with_stat (os : OS) (st : string -> option stat_t) : OS := {|
  fs_exists := fs_exists os;
  fs_read := fs_read os;
  fs_walk := fs_walk os;
  os_stat := st;
  os_getpwuid := os_getpwuid os;
  os_getgrgid := os_getgrgid os;
  os_strftime := os_strftime os;
  md5_hex := md5_hex os;
  sha1_hex := sha1_hex os;
  os_clock := os_clock os
|}.


Definition example_base : Snapshot :=
  {| monitored := "/data"; hashName := "md5";
     entries := [ example_entry "/data/b.txt" "Y";
                  example_entry "/data/a.txt" "X" ] |}.

(** The three properties of a computation, from every state. *)
Definition within {A} (allowed : list string) (m : M A) : Prop :=
  forall s, extends_within allowed (trace s) (m s).

Definition quiet {A} (m : M A) : Prop :=
  forall s, quiet_or_failed (cout s) (m s).

Definition never_returns {A} (m : M A) : Prop :=
  forall s, match m s with Ok _ _ => False | _ => True end.

(** The same machine where every entry has another group: [stat] answers
    the group id [gid] gives, and the group database is [groups]. *)
Definition regroup (os : OS) (gid : string -> Z) (groups : Z -> option group)
  : OS := {|
  fs_exists := fs_exists os;
  fs_read := fs_read os;
  fs_walk := fs_walk os;
  os_stat := fun p =>
    match os_stat os p with
    | Some i => Some {| st_size := st_size i; st_uid := st_uid i;
                        st_gid := gid p; st_mode := st_mode i |}
    | None => None
    end;
  os_getpwuid := os_getpwuid os;
  os_getgrgid := groups;
  os_strftime := os_strftime os;
  md5_hex := md5_hex os;
  sha1_hex := sha1_hex os;
  os_clock := os_clock os
|}.

(** Two states that agree on everything but the group id in [info] and the
    pointer [gr]; two outcomes of the same kind, with the same value, in
    such states. *)
Definition same_but_group (s s' : state) : Prop :=
  st_size (info s) = st_size (info s')
  /\ st_uid (info s) = st_uid (info s')
  /\ st_mode (info s) = st_mode (info s')
  /\ pw s = pw s' /\ cout s = cout s' /\ trace s = trace s'.

Definition same_outcome {A} (r r' : result A) : Prop :=
  match r, r' with
  | Ok a s, Ok a' s' => a = a' /\ same_but_group s s'
  | Exit c s, Exit c' s' => c = c' /\ same_but_group s s'
  | Uncaught e s, Uncaught e' s' => e = e' /\ same_but_group s s'
  | Undefined s, Undefined s' => same_but_group s s'
  | _, _ => False
  end.

Definition sim {A} (m m' : M A) : Prop :=
  forall s s', same_but_group s s' -> same_outcome (m s) (m' s').

(** ** The warnings of a report, written out *)

(** The warning of one field of a changed path, when its two values
    differ. *)
Definition field_change (fileName what old new : string) : list string :=
  if String.eqb old new then []
  else [fileName ++ what ++ old ++ " " ++ new].

(** The field-level discrepancies of a path between the fields of its two
    lines: size, owner, group, access rights, last modified time and hash,
    in this order. *)
Definition field_changes (fileName : string) (old new : list string)
  : list string :=
  (field_change fileName " file size is different: "
     (nth 1 old "") (nth 1 new "")
   ++ field_change fileName " owner is different: "
        (nth 2 old "") (nth 2 new "")
   ++ field_change fileName " group is different: "
        (nth 3 old "") (nth 3 new "")
   ++ field_change fileName " access rights are different: "
        (nth 4 old "") (nth 4 new "")
   ++ field_change fileName " last modified time is different: "
        (nth 5 old "") (nth 5 new "")
   ++ field_change fileName " hash is different: "
        (nth 6 old "") (nth 6 new ""))%list.

(** The warnings that go with the three lists of a report: the deleted
    paths, then the new paths, then the discrepancies of each changed path,
    each list in its own order. *)
Definition report_warnings (vFileDict dirFileDict : SMap.t string)
    (r : ChangeReport) : list string :=
  (map (fun f => f ++ " is deleted")%string (deletedFiles r)
   ++ map (fun f => f ++ " is new")%string (newFiles r)
   ++ flat_map
        (fun p => field_changes p (split_tab (at_key vFileDict p))
                    (split_tab (at_key dirFileDict p)))
        (changedFiles r))%list.

(** The comparison is defined on two dictionaries when it indexes no split
    line past its end: two different lines stored under one path have seven
    fields or more each. *)
Definition long_enough (line : string) : bool :=
  Nat.leb 7 (List.length (split_tab line)).

Definition comparable (vFileDict dirFileDict : SMap.t string) : bool :=
  forallb
    (fun '(fileName, vFileLine) =>
       match SMap.find fileName dirFileDict with
       | Some dirFileLine =>
           String.eqb vFileLine dirFileLine
           || (long_enough vFileLine && long_enough dirFileLine)
       | None => true
       end)
    (SMap.elements vFileDict).

(** Two larger stores: [a.txt] and [e.txt] are in both with other fields,
    [b.txt] and [d.txt] are in the first only, [c.txt] and [f.txt] in the
    second only; the lines are given in no particular order. *)
Definition example_record (p sz ow pm tm h : string) : FileMetadata :=
  {| fm_path := p; sizeBytes := sz; ownerName := ow; groupName := ow;
     permissionBits := pm; lastModified := tm; contentDigest := h |}.

Definition example_before : SMap.t string :=
  dict_of_lines
    [ tsv_line (example_record "/data/e.txt" "5" "alice" "644"
                  "1970-01-01 00:00:07" "E");
      tsv_line (example_record "/data/d.txt" "5" "alice" "644"
                  "1970-01-01 00:00:07" "D");
      tsv_line (example_record "/data/a.txt" "5" "alice" "644"
                  "1970-01-01 00:00:07" "X");
      tsv_line (example_record "/data/b.txt" "5" "alice" "644"
                  "1970-01-01 00:00:07" "Y") ].

Definition example_after : SMap.t string :=
  dict_of_lines
    [ tsv_line (example_record "/data/f.txt" "5" "alice" "644"
                  "1970-01-01 00:00:07" "F");
      tsv_line (example_record "/data/a.txt" "5" "alice" "600"
                  "1970-01-01 00:00:07" "W");
      tsv_line (example_record "/data/e.txt" "6" "bob" "644"
                  "1970-01-01 00:00:08" "E");
      tsv_line (example_record "/data/c.txt" "5" "alice" "644"
                  "1970-01-01 00:00:07" "Z") ].

Definition example_report : ChangeReport :=
  {| changedFiles := ["/data/a.txt"; "/data/e.txt"];
     deletedFiles := ["/data/b.txt"; "/data/d.txt"];
     newFiles := ["/data/c.txt"; "/data/f.txt"];
     warnings :=
       [ "/data/b.txt is deleted"; "/data/d.txt is deleted";
         "/data/c.txt is new"; "/data/f.txt is new";
         "/data/a.txt access rights are different: 644 600";
         "/data/a.txt hash is different: X W";
         "/data/e.txt file size is different: 5 6";
         "/data/e.txt owner is different: alice bob";
         "/data/e.txt group is different: alice bob";
         "/data/e.txt last modified time is different: 1970-01-01 00:00:07 1970-01-01 00:00:08" ] |}.

(** The two dictionaries of a verification, from records: the one the
    reading loop builds from the lines [initialize] wrote for the records,
    and the one the loop over the directory builds from the records of the
    walk, where every newline of a line is removed. *)
Definition read_store (rs : list FileMetadata) : SMap.t string :=
  dict_of_lines (lines_from (unlines (map tsv_line rs)) "").

Definition walk_store (rs : list FileMetadata) : SMap.t string :=
  fold_left
    (fun d r =>
       SMap.add (fm_path r) (remove_char newline (tsv_line r ++ NL)) d)
    rs (SMap.empty string).

(** ** Trees with a tab or a newline in a file name *)

Definition example_digest : string := "5D41402ABC4B2A76B9719D911017C592".

Definition example_file (p : string) : directory_entry :=
  {| path := p; is_directory := false; last_write_time := 7 |}.

(** A file of [/data] whose name goes on after [a.txt] with a tab and the
    text of six further fields, beside the file [a.txt] itself. *)
Definition tab_name : string :=
  tsv_line (example_entry "/data/a.txt" example_digest).

Definition tab_tree : list directory_entry :=
  [ example_file "/data/a.txt"; example_file tab_name ].

Definition tab_records : list FileMetadata :=
  [ example_entry "/data/a.txt" example_digest;
    example_entry tab_name example_digest ].

(** The machine with this tree; its verification file has contents
    [snapshot]. *)
Definition tab_os (snapshot : option string) : OS :=
  with_walk (example_os true "/srv/snap" snapshot) tab_tree.

(** The snapshot text of this tree, and the report of its verification. *)
Definition tab_text : string :=
  encode {| monitored := "/data"; hashName := "md5";
            entries := tab_records |}.

Definition tab_report : ChangeReport :=
  {| changedFiles := ["/data/a.txt"]; deletedFiles := [];
     newFiles := [tab_name]; warnings := [tab_name ++ " is new"] |}.

(** The files [x] and [z] of [/data] and a file whose name is [x], a
    newline and [y]. *)
Definition newline_name : string := "/data/x" ++ NL ++ "y".

Definition newline_tree : list directory_entry :=
  [ example_file "/data/x"; example_file newline_name;
    example_file "/data/z" ].

(** The snapshot of this tree at a time when [z] had other contents. *)
Definition newline_base : Snapshot :=
  {| monitored := "/data"; hashName := "md5";
     entries :=
       [ example_entry "/data/x" example_digest;
         example_entry newline_name example_digest;
         example_entry "/data/z" "0CC175B9C0F1B6A831C399E269772661" ] |}.

Definition newline_os : OS :=
  with_walk (example_os true "/srv/snap" (Some (encode newline_base)))
    newline_tree.

(** The records of the tree as it is now. *)
Definition newline_records : list FileMetadata :=
  [ example_entry "/data/x" example_digest;
    example_entry newline_name example_digest;
    example_entry "/data/z" example_digest ].

(** The tree with [x] and the file with the newline alone. *)
Definition short_tree : list directory_entry :=
  [ example_file "/data/x"; example_file newline_name ].

Definition short_os (snapshot : option string) : OS :=
  with_walk (example_os true "/srv/snap" snapshot) short_tree.

Definition short_records : list FileMetadata :=
  [ example_entry "/data/x" example_digest;
    example_entry newline_name example_digest ].

Definition short_text : string :=
  encode {| monitored := "/data"; hashName := "md5";
            entries := short_records |}.

(** * Properties *)
(** ** Strings *)

Lemma append_assoc (a b c : string) : (a ++ b) ++ c = a ++ (b ++ c).
Proof. induction a as [|x a IH]; simpl; [reflexivity | now rewrite IH]. Qed.

Lemma append_nil_r (a : string) : a ++ "" = a.
Proof. induction a as [|x a IH]; simpl; [reflexivity | now rewrite IH]. Qed.

Lemma prefix_find (pat s : string) : prefix pat s = true -> find s pat = Some 0.
Proof. intros H. destruct s; simpl in *; now rewrite H. Qed.

Lemma sub_path_contains (dir p : string) :
  sub_path dir p = true -> contains p dir = true.
Proof.
  unfold sub_path, contains. intros H.
  apply andb_true_iff in H as [H _].
  now rewrite (prefix_find _ _ H).
Qed.

(** ** The preconditions of [initialize] *)

Section Preconditions.

Variable os : OS.

Ltac run := unfold initialize, verify, bind, now, when, fail_with, cout_endl,
                   exit, ret, ifstream_open, log; simpl.

Lemma initialize_missing_directory dirPath vFilePath rFilePath hashF s :
  fs_exists os dirPath = false ->
  initialize os dirPath vFilePath rFilePath hashF s =
  Exit EXIT_FAILURE (add_cout "The specified of directory does not exist" s).
Proof. intros H. run. now rewrite H. Qed.

Lemma initialize_vfile_inside dirPath vFilePath rFilePath hashF s :
  fs_exists os dirPath = true ->
  contains vFilePath dirPath = true ->
  initialize os dirPath vFilePath rFilePath hashF s =
  Exit EXIT_FAILURE
    (add_cout "The path of verification file is inside the monitored directory" s).
Proof. intros H1 H2. run. now rewrite H1, H2. Qed.

Lemma initialize_rfile_inside dirPath vFilePath rFilePath hashF s :
  fs_exists os dirPath = true ->
  contains vFilePath dirPath = false ->
  contains rFilePath dirPath = true ->
  initialize os dirPath vFilePath rFilePath hashF s =
  Exit EXIT_FAILURE
    (add_cout "The path of report file is inside the monitored directory" s).
Proof. intros H1 H2 H3. run. now rewrite H1, H2, H3. Qed.

Lemma initialize_same_paths dirPath vFilePath rFilePath hashF s :
  fs_exists os dirPath = true ->
  contains vFilePath dirPath = false ->
  contains rFilePath dirPath = false ->
  String.eqb vFilePath rFilePath = true ->
  initialize os dirPath vFilePath rFilePath hashF s =
  Exit EXIT_FAILURE
    (add_cout
       "The path of verification file is the same as the path of report file" s).
Proof. intros H1 H2 H3 H4. run. now rewrite H1, H2, H3, H4. Qed.

Lemma initialize_not_txt dirPath vFilePath rFilePath hashF s :
  fs_exists os dirPath = true ->
  contains vFilePath dirPath = false ->
  contains rFilePath dirPath = false ->
  String.eqb vFilePath rFilePath = false ->
  contains rFilePath ".txt" = false ->
  initialize os dirPath vFilePath rFilePath hashF s =
  Exit EXIT_FAILURE
    (add_cout "The report file is not a text file with .txt extension" s).
Proof. intros H1 H2 H3 H4 H5. run. now rewrite H1, H2, H3, H4, H5. Qed.

(** The same checks in [verify], once the header has been read. *)

Lemma verify_missing_file vFilePath rFilePath s :
  fs_exists os vFilePath = false ->
  verify os vFilePath rFilePath s =
  Exit EXIT_FAILURE (add_cout "The verification file does not exist" s).
Proof. intros H. run. now rewrite H. Qed.

Lemma verify_bad_header vFilePath rFilePath s :
  fs_exists os vFilePath = true ->
  read_header (stream_of (fs_read os vFilePath)) = None ->
  verify os vFilePath rFilePath s =
  Uncaught out_of_range (add_event (EvOpenIn vFilePath) s).
Proof. intros H1 H2. run. now rewrite H1, H2. Qed.

Section HeaderRead.

Variables (vFilePath rFilePath : string) (s : state).
Variables (vFile : istream) (line dirPath hashF : string).
Hypothesis Hexists : fs_exists os vFilePath = true.
Hypothesis Hheader :
  read_header (stream_of (fs_read os vFilePath))
  = Some (vFile, line, dirPath, hashF).

Let opened := add_event (EvOpenIn vFilePath) s.

Lemma verify_vfile_inside :
  contains vFilePath dirPath = true ->
  verify os vFilePath rFilePath s =
  Exit EXIT_FAILURE
    (add_cout "The path of verification file is inside the monitored directory"
       opened).
Proof. intros H2. run. now rewrite Hexists, Hheader, H2. Qed.

Lemma verify_rfile_inside :
  contains vFilePath dirPath = false ->
  contains rFilePath dirPath = true ->
  verify os vFilePath rFilePath s =
  Exit EXIT_FAILURE
    (add_cout "The path of report file is inside the monitored directory"
       opened).
Proof. intros H2 H3. run. now rewrite Hexists, Hheader, H2, H3. Qed.

Lemma verify_same_paths :
  contains vFilePath dirPath = false ->
  contains rFilePath dirPath = false ->
  String.eqb vFilePath rFilePath = true ->
  verify os vFilePath rFilePath s =
  Exit EXIT_FAILURE
    (add_cout
       "The path of verification file is the same as the path of report file"
       opened).
Proof. intros H2 H3 H4. run. now rewrite Hexists, Hheader, H2, H3, H4. Qed.

Lemma verify_not_txt :
  contains vFilePath dirPath = false ->
  contains rFilePath dirPath = false ->
  String.eqb vFilePath rFilePath = false ->
  contains rFilePath ".txt" = false ->
  verify os vFilePath rFilePath s =
  Exit EXIT_FAILURE
    (add_cout "The report file is not a text file with .txt extension" opened).
Proof. intros H2 H3 H4 H5. run. now rewrite Hexists, Hheader, H2, H3, H4, H5. Qed.

End HeaderRead.
End Preconditions.

(** ** Report path and path conflicts *)

(** C5 (as stated, refuted): on a machine where every other check passes,
    the report path [/srv/report.txt] is accepted and the run completes,
    while [/srv/report.log] makes the same run exit with a failure. *)
Lemma report_extension_is_enforced :
  (exists s',
     initialize (example_os true "/srv/snap" None)
       "/data" "/srv/snap" "/srv/report.txt" "md5" initial_state = Ok tt s')
  /\ initialize (example_os true "/srv/snap" None)
       "/data" "/srv/snap" "/srv/report.log" "md5" initial_state
     = Exit EXIT_FAILURE
         (add_cout "The report file is not a text file with .txt extension"
            initial_state).
Proof. split; [eexists|]; vm_compute; reflexivity. Qed.

(** C5 (amended): a report path that does not contain the text [.txt] is
    rejected. When the earlier checks pass, [initialize] exits with a failure
    and the message about the extension before any file is opened, and so
    does [verify] once it has read the header of the verification file. *)
Theorem report_path_without_txt_is_rejected (os : OS) :
  (forall dirPath vFilePath rFilePath hashF s,
      fs_exists os dirPath = true ->
      contains vFilePath dirPath = false ->
      contains rFilePath dirPath = false ->
      vFilePath <> rFilePath ->
      contains rFilePath ".txt" = false ->
      initialize os dirPath vFilePath rFilePath hashF s
      = Exit EXIT_FAILURE
          (add_cout "The report file is not a text file with .txt extension" s))
  /\
  (forall vFilePath rFilePath s vFile line dirPath hashF,
      fs_exists os vFilePath = true ->
      read_header (stream_of (fs_read os vFilePath))
      = Some (vFile, line, dirPath, hashF) ->
      contains vFilePath dirPath = false ->
      contains rFilePath dirPath = false ->
      vFilePath <> rFilePath ->
      contains rFilePath ".txt" = false ->
      verify os vFilePath rFilePath s
      = Exit EXIT_FAILURE
          (add_cout "The report file is not a text file with .txt extension"
             (add_event (EvOpenIn vFilePath) s))).
Proof.
  split; intros.
  - apply initialize_not_txt; auto. now apply String.eqb_neq.
  - eapply verify_not_txt; eauto. now apply String.eqb_neq.
Qed.

Lemma report_path_without_txt_is_rejected_witness :
  initialize (example_os true "/srv/snap" None)
    "/data" "/srv/snap" "/srv/report.log" "md5" initial_state
  = Exit EXIT_FAILURE
      (add_cout "The report file is not a text file with .txt extension"
         initial_state).
Proof.
  apply (proj1 (report_path_without_txt_is_rejected _));
    try reflexivity; discriminate.
Defined.

(** C6 (as stated, refuted): with the verification file below the monitored
    directory, [initialize] on a missing directory stops with the message
    that the directory does not exist, and [verify] has opened the
    verification file by the time it stops. *)
Lemma path_conflict_is_not_checked_first :
  (path_conflict "/data" "/data/snap.tsv" "/srv/report.txt"
   /\ ~ path_conflict_failure
        (initialize (example_os false "/srv/snap" None)
           "/data" "/data/snap.tsv" "/srv/report.txt" "md5" initial_state)
        initial_state)
  /\
  (path_conflict "/data" "/data/snap.tsv" "/srv/report.txt"
   /\ ~ path_conflict_failure
        (verify (example_os true "/data/snap.tsv"
                   (Some (example_header "/data" "md5")))
           "/data/snap.tsv" "/srv/report.txt" initial_state)
        initial_state).
Proof.
  split; (split; [left; reflexivity|]);
    intros [msg [Hin Heq]]; vm_compute in Heq; inversion Heq; subst msg;
    simpl in Hin; intuition discriminate.
Qed.

(** C6 (amended): when the monitored directory exists, an initialization
    whose verification-file or report-file path is a sub-path of it, or
    whose two paths are equal, exits with a path-conflict message before any
    file is opened. A verification takes the monitored directory from the
    header of the verification file: once that file exists and its header is
    read, the same conflicts make the run exit with a path-conflict message,
    the opening of the verification file being the only event before it. *)
Theorem path_conflict_fails_first (os : OS) :
  (forall dirPath vFilePath rFilePath hashF s,
      fs_exists os dirPath = true ->
      path_conflict dirPath vFilePath rFilePath ->
      path_conflict_failure
        (initialize os dirPath vFilePath rFilePath hashF s) s)
  /\
  (forall vFilePath rFilePath s vFile line dirPath hashF,
      fs_exists os vFilePath = true ->
      read_header (stream_of (fs_read os vFilePath))
      = Some (vFile, line, dirPath, hashF) ->
      path_conflict dirPath vFilePath rFilePath ->
      path_conflict_failure
        (verify os vFilePath rFilePath s) (add_event (EvOpenIn vFilePath) s)).
Proof.
  unfold path_conflict_failure, path_conflict_messages.
  split.
  - intros d v r h s He Hc.
    destruct (contains v d) eqn:Hv.
    { eexists; split; [|now apply initialize_vfile_inside]. simpl; auto. }
    destruct (contains r d) eqn:Hr.
    { eexists; split; [|now apply initialize_rfile_inside]. simpl; auto. }
    destruct (String.eqb v r) eqn:Hs.
    { eexists; split; [|now apply initialize_same_paths]. simpl; auto. }
    exfalso. destruct Hc as [Hc|[Hc|Hc]].
    + apply sub_path_contains in Hc. congruence.
    + apply sub_path_contains in Hc. congruence.
    + apply String.eqb_neq in Hs. contradiction.
  - intros v r s vFile line d h He Hh Hc.
    destruct (contains v d) eqn:Hv.
    { eexists; split; [|now eapply verify_vfile_inside; eauto]. simpl; auto. }
    destruct (contains r d) eqn:Hr.
    { eexists; split; [|now eapply verify_rfile_inside; eauto]. simpl; auto. }
    destruct (String.eqb v r) eqn:Hs.
    { eexists; split; [|now eapply verify_same_paths; eauto]. simpl; auto. }
    exfalso. destruct Hc as [Hc|[Hc|Hc]].
    + apply sub_path_contains in Hc. congruence.
    + apply sub_path_contains in Hc. congruence.
    + apply String.eqb_neq in Hs. contradiction.
Qed.

Lemma path_conflict_fails_first_witness :
  path_conflict_failure
    (initialize (example_os true "/srv/snap" None)
       "/data" "/data/snap.tsv" "/srv/report.txt" "md5" initial_state)
    initial_state.
Proof.
  apply (proj1 (path_conflict_fails_first _));
    [reflexivity | left; reflexivity].
Defined.

(** C10: the path checks are substring tests. The report file
    [/backup/data-report.txt] is not a sub-path of [/data], yet every
    initialization of [/data] with it, and every verification of a snapshot
    of [/data] with it, is rejected as a report file inside the monitored
    directory. *)
Theorem substring_test_rejects_outside_path (os : OS) :
  sub_path "/data" "/backup/data-report.txt" = false
  /\
  (forall vFilePath hashF s,
      fs_exists os "/data" = true ->
      contains vFilePath "/data" = false ->
      initialize os "/data" vFilePath "/backup/data-report.txt" hashF s
      = Exit EXIT_FAILURE
          (add_cout "The path of report file is inside the monitored directory"
             s))
  /\
  (forall vFilePath s vFile line hashF,
      fs_exists os vFilePath = true ->
      read_header (stream_of (fs_read os vFilePath))
      = Some (vFile, line, "/data", hashF) ->
      contains vFilePath "/data" = false ->
      verify os vFilePath "/backup/data-report.txt" s
      = Exit EXIT_FAILURE
          (add_cout "The path of report file is inside the monitored directory"
             (add_event (EvOpenIn vFilePath) s))).
Proof.
  split; [reflexivity|]. split; intros.
  - now apply initialize_rfile_inside.
  - eapply verify_rfile_inside; eauto.
Qed.

Lemma substring_test_rejects_outside_path_witness :
  initialize (example_os true "/srv/snap" None)
    "/data" "/srv/snap" "/backup/data-report.txt" "md5" initial_state
  = Exit EXIT_FAILURE
      (add_cout "The path of report file is inside the monitored directory"
         initial_state)
  /\
  verify (example_os true "/srv/snap" (Some (example_header "/data" "md5")))
    "/srv/snap" "/backup/data-report.txt" initial_state
  = Exit EXIT_FAILURE
      (add_cout "The path of report file is inside the monitored directory"
         (add_event (EvOpenIn "/srv/snap") initial_state)).
Proof.
  split.
  - apply (proj1 (proj2 (substring_test_rejects_outside_path _)));
      reflexivity.
  - eapply (proj2 (proj2 (substring_test_rejects_outside_path _)));
      reflexivity.
Defined.

(** ** The captured line *)

Section Capture.

Variable os : OS.

Ltac assoc_norm :=
  unfold TAB, NL; repeat (rewrite !append_assoc; simpl); reflexivity.

Lemma createTsvString_ok entry hashF s i p digest :
  os_stat os (path entry) = Some i ->
  os_getpwuid os (st_uid i) = Some p ->
  digest_field os entry hashF = Some digest ->
  createTsvString os entry hashF s
  = Ok (tsv_line (captured os entry i p digest) ++ NL)
       (captured_state os entry i p s).
Proof.
  intros Hst Hpw Hd.
  unfold createTsvString, stat, entry_last_write_time, bind, log, get_info,
    getpwuid, getgrgid, pw_pw_name, ret; simpl.
  rewrite Hst; simpl. rewrite Hpw; simpl.
  unfold digest_field in Hd. unfold captured_state, tsv_line, captured; simpl.
  destruct (is_directory entry); simpl.
  - inversion Hd; subst digest. f_equal. assoc_norm.
  - unfold hashFile, bind, log, ret, fail_with; simpl.
    destruct (String.eqb hashF "md5").
    + inversion Hd; subst digest. f_equal. assoc_norm.
    + destruct (String.eqb hashF "sha1"); [|discriminate].
      inversion Hd; subst digest. f_equal. assoc_norm.
Qed.

End Capture.

(** C1 (the code at the failing input): on a machine where the entry
    [/data/a.txt] belongs to user [alice] and group [staff], the line of the
    entry has [alice] in the owner field and in the group field, although
    [getgrgid] resolved the group to [staff]. *)
Theorem createTsvString_group_field_is_owner_name :
  exists line s',
    createTsvString (example_os true "/srv/snap" None)
      {| path := "/data/a.txt"; is_directory := false; last_write_time := 7 |}
      "md5" initial_state = Ok line s'
    /\ nth_error (split_tab line) 2 = Some "alice"
    /\ nth_error (split_tab line) 3 = Some "alice"
    /\ option_map gr_name (gr s') = Some "staff".
Proof.
  do 2 eexists. split; [vm_compute; reflexivity|].
  repeat split; vm_compute; reflexivity.
Qed.

(** ** The hash function *)


Lemma main_switch_state opt optarg l s l' s' :
  main_switch opt optarg l s = Ok l' s' -> s' = s.
Proof.
  unfold main_switch, ret, fail_with, bind, cout_endl, exit.
  repeat match goal with
         | |- context [if ?b then _ else _] => destruct b
         end; intros H; inversion H; reflexivity.
Qed.

Lemma main_options_state opts : forall l s l' s',
  main_options opts l s = Ok l' s' -> s' = s.
Proof.
  induction opts as [|[opt optarg] rest IH]; intros l s l' s' H; simpl in H.
  - inversion H; reflexivity.
  - unfold bind in H.
    destruct (main_switch opt optarg l s) as [l1 s1| | |] eqn:E;
      try discriminate.
    apply main_switch_state in E. subst s1. eauto.
Qed.




(** ** Fields and lines *)

Lemma has_char_cons c a s :
  has_char c (String a s) = Ascii.eqb a c || has_char c s.
Proof.
  unfold has_char; simpl. destruct (Ascii.eqb a c); [reflexivity|].
  now destruct (find_char s c).
Qed.

Lemma has_char_app c a b :
  has_char c (a ++ b) = has_char c a || has_char c b.
Proof.
  induction a as [|x a IH]; [reflexivity|].
  simpl. rewrite !has_char_cons, IH. now rewrite orb_assoc.
Qed.

Lemma split_fields_nonempty line : split_fields line <> [].
Proof.
  destruct line as [|c rest]; simpl; [discriminate|].
  destruct (Ascii.eqb c tab); [discriminate|].
  destruct (split_fields rest); discriminate.
Qed.

Lemma split_loop_fields line : forall temp v,
  split_loop line temp v
  = (v ++ match split_fields line with
          | h :: t => (temp ++ h)%string :: t
          | [] => []
          end)%list.
Proof.
  induction line as [|c rest IH]; intros temp v; simpl.
  - now rewrite append_nil_r.
  - destruct (Ascii.eqb c tab).
    + rewrite IH. rewrite <- app_assoc. simpl. rewrite append_nil_r.
      pose proof (split_fields_nonempty rest).
      destruct (split_fields rest); [contradiction|reflexivity].
    + rewrite IH.
      pose proof (split_fields_nonempty rest).
      destruct (split_fields rest); [contradiction|].
      now rewrite append_assoc.
Qed.

Lemma split_tab_fields line : split_tab line = split_fields line.
Proof.
  unfold split_tab. rewrite split_loop_fields. simpl.
  pose proof (split_fields_nonempty line).
  destruct (split_fields line); [contradiction|reflexivity].
Qed.

Lemma join_split_fields line : join_tab (split_fields line) = line.
Proof.
  induction line as [|c rest IH]; [reflexivity|].
  simpl. destruct (Ascii.eqb_spec c tab) as [->|_].
  - pose proof (split_fields_nonempty rest).
    destruct (split_fields rest) eqn:E; [contradiction|].
    change (join_tab ("" :: s :: l)) with ("" ++ TAB ++ join_tab (s :: l)).
    now rewrite IH.
  - pose proof (split_fields_nonempty rest).
    destruct (split_fields rest) as [|h t] eqn:E; [contradiction|].
    destruct t as [|h' t]; simpl in *; now rewrite <- IH.
Qed.

Lemma split_tab_inj l1 l2 : split_tab l1 = split_tab l2 -> l1 = l2.
Proof.
  rewrite !split_tab_fields. intros H.
  rewrite <- (join_split_fields l1), <- (join_split_fields l2).
  now rewrite H.
Qed.

Lemma split_fields_clean f :
  has_char tab f = false -> split_fields f = [f].
Proof.
  induction f as [|c f IH]; [reflexivity|].
  rewrite has_char_cons. intros H. apply orb_false_iff in H as [Hc Hf].
  simpl. rewrite Hc, (IH Hf). reflexivity.
Qed.

Lemma split_fields_app f rest :
  has_char tab f = false ->
  split_fields (f ++ String tab rest) = f :: split_fields rest.
Proof.
  induction f as [|c f IH]; intros H.
  - reflexivity.
  - rewrite has_char_cons in H. apply orb_false_iff in H as [Hc Hf].
    simpl. rewrite Hc, (IH Hf). reflexivity.
Qed.

Lemma split_join_tab fs :
  fs <> [] ->
  forallb (fun f => negb (has_char tab f)) fs = true ->
  split_fields (join_tab fs) = fs.
Proof.
  induction fs as [|f rest IH]; [contradiction|]. intros _ H.
  simpl in H. apply andb_true_iff in H as [Hf Hrest].
  apply negb_true_iff in Hf.
  destruct rest as [|g rest].
  - simpl. now apply split_fields_clean.
  - change (join_tab (f :: g :: rest))
      with (f ++ String tab (join_tab (g :: rest))).
    rewrite split_fields_app by assumption.
    rewrite IH; [reflexivity | discriminate | assumption].
Qed.

Lemma tsv_line_join r : tsv_line r = join_tab (fields r).
Proof. reflexivity. Qed.

Lemma clean_entry_tabs r :
  clean_entry r = true ->
  forallb (fun f => negb (has_char tab f)) (fields r) = true.
Proof.
  unfold clean_entry. rewrite !forallb_forall. intros H f Hf.
  specialize (H f Hf). now apply andb_true_iff in H as [H _].
Qed.

Lemma split_tab_tsv_line r :
  clean_entry r = true -> split_tab (tsv_line r) = fields r.
Proof.
  intros H. rewrite split_tab_fields, tsv_line_join.
  apply split_join_tab; [discriminate | now apply clean_entry_tabs].
Qed.

Lemma take_app_tab f rest n :
  has_char tab f = false ->
  find_char (f ++ String tab rest) tab = Some n ->
  take n (f ++ String tab rest) = f.
Proof.
  revert n. induction f as [|c f IH]; intros n H.
  - simpl. intros E. now inversion E.
  - rewrite has_char_cons in H. apply orb_false_iff in H as [Hc Hf].
    simpl. rewrite Hc.
    destruct (find_char (f ++ String tab rest) tab) as [m|] eqn:E;
      [|discriminate].
    intros E'. inversion E'; subst n. simpl. now rewrite (IH m Hf).
Qed.

Lemma find_char_app_tab f rest :
  exists n, find_char (f ++ String tab rest) tab = Some n.
Proof.
  induction f as [|c f [n IH]]; simpl.
  - eauto.
  - destruct (Ascii.eqb c tab); [eauto|]. rewrite IH. simpl. eauto.
Qed.

Lemma key_of_app_tab f rest :
  has_char tab f = false -> key_of (f ++ String tab rest) = f.
Proof.
  intros H. unfold key_of.
  destruct (find_char_app_tab f rest) as [n E]. rewrite E.
  now apply take_app_tab.
Qed.

Lemma key_of_tsv_line r :
  clean_entry r = true -> key_of (tsv_line r) = fm_path r.
Proof.
  intros H. apply clean_entry_tabs in H. simpl in H.
  apply andb_true_iff in H as [H _]. apply negb_true_iff in H.
  unfold tsv_line. now apply key_of_app_tab.
Qed.

Lemma join_tab_no_newline fs :
  forallb (fun f => negb (has_char newline f)) fs = true ->
  has_char newline (join_tab fs) = false.
Proof.
  induction fs as [|f rest IH]; [reflexivity|]. intros H.
  simpl in H. apply andb_true_iff in H as [Hf Hrest].
  apply negb_true_iff in Hf.
  destruct rest as [|g rest]; [exact Hf|].
  change (join_tab (f :: g :: rest))
    with (f ++ String tab (join_tab (g :: rest))).
  rewrite has_char_app, has_char_cons, Hf, (IH Hrest). reflexivity.
Qed.

Lemma tsv_line_no_newline r :
  clean_entry r = true -> has_char newline (tsv_line r) = false.
Proof.
  intros H. rewrite tsv_line_join. apply join_tab_no_newline.
  unfold clean_entry in H. rewrite forallb_forall in *. intros f Hf.
  specialize (H f Hf). now apply andb_true_iff in H as [_ H].
Qed.

(** ** Reading a snapshot text *)

Lemma extract_line_app l rest :
  has_char newline l = false ->
  extract_line (l ++ String newline rest) = (l, rest, true).
Proof.
  induction l as [|c l IH]; intros H; [reflexivity|].
  rewrite has_char_cons in H. apply orb_false_iff in H as [Hc Hl].
  simpl. rewrite Hc, (IH Hl). reflexivity.
Qed.

Lemma getline_line l rest line :
  has_char newline l = false ->
  getline (good_stream ((l ++ NL) ++ rest)) line = (good_stream rest, l, true).
Proof.
  intros H. unfold getline, good_stream; simpl.
  rewrite append_assoc. simpl. rewrite (extract_line_app _ _ H). reflexivity.
Qed.

Lemma substr_from_start l count :
  substr l 0 count
  = Some (match count with None => l | Some n => take n l end).
Proof. unfold substr. simpl. now destruct l. Qed.

Lemma substr_key l : substr l 0 (find_char l tab) = Some (key_of l).
Proof. rewrite substr_from_start. reflexivity. Qed.

Lemma read_loop_lines ls : forall fuel line d,
  forallb (fun l => negb (has_char newline l)) ls = true ->
  List.length ls < fuel ->
  read_loop fuel (good_stream (unlines ls)) line d
  = fold_left add_line ls d.
Proof.
  induction ls as [|l ls IH]; intros fuel line d Hc Hf.
  - destruct fuel; [inversion Hf|]. reflexivity.
  - destruct fuel; [inversion Hf|].
    simpl in Hc. apply andb_true_iff in Hc as [Hl Hls].
    apply negb_true_iff in Hl.
    cbn [read_loop unlines fold_right].
    rewrite (getline_line _ _ _ Hl), substr_key.
    cbn [fold_left]. apply IH; [assumption | simpl in Hf; lia].
Qed.

Lemma length_append a b :
  String.length (a ++ b) = String.length a + String.length b.
Proof. induction a as [|c a IH]; simpl; [reflexivity | now rewrite IH]. Qed.

Lemma unlines_length ls : List.length ls <= String.length (unlines ls).
Proof.
  induction ls as [|l ls IH]; simpl; [lia|].
  rewrite !length_append. simpl. lia.
Qed.

Lemma read_vFileDict_lines ls line :
  forallb (fun l => negb (has_char newline l)) ls = true ->
  read_vFileDict (good_stream (unlines ls)) line = dict_of_lines ls.
Proof.
  intros H. unfold read_vFileDict, dict_of_lines.
  apply read_loop_lines; [assumption|].
  simpl. pose proof (unlines_length ls). lia.
Qed.

(** The fuel of the reading loop is enough on every stream: more fuel than
    the length of the buffer never changes the result. *)

Lemma extract_line_shorter b : forall l rest,
  extract_line b = (l, rest, true) -> String.length rest < String.length b.
Proof.
  induction b as [|c b IH]; intros l rest H; simpl in H; [discriminate|].
  destruct (Ascii.eqb c newline).
  - inversion H; subst. simpl. lia.
  - destruct (extract_line b) as [[l' r'] dl] eqn:E.
    inversion H; subst. specialize (IH _ _ eq_refl). simpl. lia.
Qed.

Lemma extract_line_all b : forall l rest,
  extract_line b = (l, rest, false) -> l = b.
Proof.
  induction b as [|c b IH]; intros l rest H; simpl in H.
  - now inversion H.
  - destruct (Ascii.eqb c newline); [discriminate|].
    destruct (extract_line b) as [[l' r'] dl] eqn:E.
    inversion H; subst. now rewrite (IH _ _ eq_refl).
Qed.

Lemma read_loop_fuel fuel : forall fuel' strm line d,
  String.length (buf strm) < fuel ->
  String.length (buf strm) < fuel' ->
  read_loop fuel strm line d = read_loop fuel' strm line d.
Proof.
  induction fuel as [|fuel IH]; intros fuel' strm line d H H'; [lia|].
  destruct fuel' as [|fuel']; [lia|].
  cbn [read_loop]. unfold getline.
  destruct (eofbit strm || failbit strm); [reflexivity|].
  destruct (extract_line (buf strm)) as [[l rest] delim] eqn:E.
  destruct delim.
  - rewrite substr_key. apply extract_line_shorter in E.
    apply IH; simpl; lia.
  - apply extract_line_all in E. subst l.
    destruct (buf strm) as [|c b] eqn:Eb; [reflexivity|].
    cbn [negb]. rewrite substr_key.
    simpl in H, H'.
    destruct fuel as [|fuel]; [lia|]. destruct fuel' as [|fuel'']; [lia|].
    reflexivity.
Qed.

Lemma substr_to_end l pos :
  substr l pos None
  = if Nat.ltb (String.length l) pos then None else Some (drop pos l).
Proof. reflexivity. Qed.

Section Header.

Variables l1 l2 l3 l4 rest : string.
Hypothesis H1 : has_char newline l1 = false.
Hypothesis H2 : has_char newline l2 = false.
Hypothesis H3 : has_char newline l3 = false.
Hypothesis H4 : has_char newline l4 = false.

Let text := (l1 ++ NL) ++ (l2 ++ NL) ++ (l3 ++ NL) ++ (l4 ++ NL) ++ rest.

Lemma read_header_lines :
  read_header (stream_of (Some text))
  = if Nat.ltb (String.length l2) 11 then None
    else if Nat.ltb (String.length l3) 15 then None
    else Some (good_stream rest, l4, drop 11 l2, drop 15 l3).
Proof.
  unfold read_header, text, stream_of.
  fold (good_stream ((l1 ++ NL) ++ (l2 ++ NL) ++ (l3 ++ NL) ++ (l4 ++ NL) ++ rest)).
  rewrite (getline_line _ _ _ H1), (getline_line _ _ _ H2), substr_to_end.
  destruct (Nat.ltb (String.length l2) 11); [reflexivity|].
  rewrite (getline_line _ _ _ H3), substr_to_end.
  destruct (Nat.ltb (String.length l3) 15); [reflexivity|].
  rewrite (getline_line _ _ _ H4). reflexivity.
Qed.

End Header.

Lemma decode_lines l1 l2 l3 l4 ls :
  has_char newline l1 = false -> has_char newline l2 = false ->
  has_char newline l3 = false -> has_char newline l4 = false ->
  forallb (fun l => negb (has_char newline l)) ls = true ->
  decode ((l1 ++ NL) ++ (l2 ++ NL) ++ (l3 ++ NL) ++ (l4 ++ NL) ++ unlines ls)
  = if Nat.ltb (String.length l2) 11 then None
    else if Nat.ltb (String.length l3) 15 then None
    else Some (drop 11 l2, drop 15 l3, dict_of_lines ls).
Proof.
  intros H1 H2 H3 H4 Hls. unfold decode.
  rewrite read_header_lines by assumption.
  destruct (Nat.ltb (String.length l2) 11); [reflexivity|].
  destruct (Nat.ltb (String.length l3) 15); [reflexivity|].
  now rewrite read_vFileDict_lines.
Qed.

(** C2 (as stated, refuted): a text without the header, whose data line has
    two fields, is decoded without any failure; the empty text makes the
    reader throw [std::out_of_range], which nothing catches. *)
Lemma decode_accepts_malformed_text :
  (well_formed_text headerless_text = false
   /\ exists d,
        decode headerless_text = Some ("g that", " Monday", d)
        /\ SMap.find "a" d = Some ("a" ++ TAB ++ "b"))
  /\ (well_formed_text "" = false /\ decode "" = None).
Proof.
  split; split; try reflexivity.
  eexists. split; [unfold decode; vm_compute; reflexivity|].
  vm_compute. reflexivity.
Qed.

(** C2 (amended): the reader validates nothing. On a text of four lines
    followed by data lines, it throws [std::out_of_range] when the second
    line has fewer than 11 characters or the third fewer than 15; otherwise
    it returns, whatever the four lines say and however many fields the data
    lines have: the directory is the second line from its character 11 on,
    the hash function the third from its character 15 on, and every data
    line is stored under its text before the first tab. *)
Theorem decode_validates_nothing (l1 l2 l3 l4 : string) (ls : list string) :
  has_char newline l1 = false -> has_char newline l2 = false ->
  has_char newline l3 = false -> has_char newline l4 = false ->
  forallb (fun l => negb (has_char newline l)) ls = true ->
  let text :=
    (l1 ++ NL) ++ (l2 ++ NL) ++ (l3 ++ NL) ++ (l4 ++ NL) ++ unlines ls in
  (String.length l2 < 11 \/ String.length l3 < 15 -> decode text = None)
  /\ (11 <= String.length l2 -> 15 <= String.length l3 ->
      decode text = Some (drop 11 l2, drop 15 l3, dict_of_lines ls)).
Proof.
  intros H1 H2 H3 H4 Hls text. unfold text.
  rewrite decode_lines by assumption.
  split.
  - intros [H|H].
    + apply Nat.ltb_lt in H. now rewrite H.
    + destruct (Nat.ltb (String.length l2) 11); [reflexivity|].
      apply Nat.ltb_lt in H. now rewrite H.
  - intros Ha Hb.
    apply Nat.ltb_ge in Ha, Hb. now rewrite Ha, Hb.
Qed.

Lemma decode_validates_nothing_witness :
  decode headerless_text
  = Some ("g that", " Monday", dict_of_lines ["a" ++ TAB ++ "b"]).
Proof.
  apply (decode_validates_nothing
           "these are the notes" "of a meeting that"
           "took place on a Monday" "in the morning" ["a" ++ TAB ++ "b"]);
    try reflexivity; simpl; lia.
Defined.

(** ** The dictionary of a list of lines *)

Lemma fold_add_other ls : forall d k,
  ~ In k (map key_of ls) ->
  SMap.find k (fold_left add_line ls d) = SMap.find k d.
Proof.
  induction ls as [|l ls IH]; intros d k Hk; [reflexivity|].
  simpl in *. rewrite IH by tauto.
  unfold add_line. apply SMapF.add_neq_o. intros E. apply Hk. now left.
Qed.

Lemma fold_add_present ls : forall d l,
  NoDup (map key_of ls) -> In l ls ->
  SMap.find (key_of l) (fold_left add_line ls d) = Some l.
Proof.
  induction ls as [|x ls IH]; intros d l Hnd Hin; [contradiction|].
  simpl in *. inversion Hnd as [|? ? Hx Hnd']; subst.
  destruct Hin as [->|Hin].
  - rewrite fold_add_other by assumption. unfold add_line.
    now apply SMapF.add_eq_o.
  - now apply IH.
Qed.

Lemma fold_add_origin ls : forall d k v,
  SMap.find k (fold_left add_line ls d) = Some v ->
  (In v ls /\ key_of v = k) \/ SMap.find k d = Some v.
Proof.
  induction ls as [|x ls IH]; intros d k v H; [now right|].
  simpl in H. apply IH in H as [[Hin Hk]|H].
  - left. split; [now right | assumption].
  - unfold add_line in H. rewrite SMapF.add_o in H.
    destruct (String_as_OT.eq_dec (key_of x) k) as [E|E].
    + inversion H; subst. left. split; [now left | reflexivity].
    + now right.
Qed.

(** ** The text [initialize] writes *)

Lemma written_from_app tr1 tr2 p : forall acc,
  written_from (tr1 ++ tr2) p acc = written_from tr2 p (written_from tr1 p acc).
Proof.
  induction tr1 as [|e tr1 IH]; intros acc; [reflexivity|].
  destruct e; simpl; apply IH.
Qed.

Lemma createTsvString_capture os hashF entry r s :
  capture os hashF entry = Some r ->
  exists s' evs,
    createTsvString os entry hashF s = Ok (tsv_line r ++ NL) s'
    /\ trace s' = (trace s ++ evs)%list
    /\ forall q acc, written_from evs q acc = acc.
Proof.
  unfold capture. intros H.
  destruct (os_stat os (path entry)) as [i|] eqn:Hi; [|discriminate].
  destruct (os_getpwuid os (st_uid i)) as [p|] eqn:Hp; [|discriminate].
  destruct (digest_field os entry hashF) as [dg|] eqn:Hd; [|discriminate].
  inversion H; subst r.
  exists (captured_state os entry i p s).
  exists (if is_directory entry then [EvStat (path entry)]
          else [EvStat (path entry); EvHashRead (path entry)]).
  split; [now apply createTsvString_ok|].
  unfold captured_state. destruct (is_directory entry); simpl.
  - split; reflexivity.
  - split; [now rewrite <- app_assoc | reflexivity].
Qed.

Lemma initialize_loop_written os hashF v es : forall rs fileNum dirNum s,
  capture_all os hashF es = Some rs ->
  exists counts s' evs,
    initialize_loop os es v hashF fileNum dirNum s = Ok counts s'
    /\ trace s' = (trace s ++ evs)%list
    /\ (forall acc, written_from evs v (Some acc)
                    = Some (acc ++ unlines (map tsv_line rs)))
    /\ (forall q acc, String.eqb v q = false -> written_from evs q acc = acc).
Proof.
  induction es as [|entry es IH]; intros rs fileNum dirNum s H; simpl in H.
  - inversion H; subst rs. exists (fileNum, dirNum), s, [].
    simpl. rewrite app_nil_r. repeat split; auto.
    intros acc. now rewrite append_nil_r.
  - destruct (capture os hashF entry) as [r|] eqn:Hr; [|discriminate].
    destruct (capture_all os hashF es) as [rs'|] eqn:Hrs; [|discriminate].
    inversion H; subst rs.
    destruct (createTsvString_capture os hashF entry r s Hr)
      as (s1 & evs1 & Hrun & Htr1 & Hw1).
    cbn [initialize_loop]. unfold bind at 1. rewrite Hrun.
    unfold bind at 1. unfold write, log at 1.
    set (s2 := add_event (EvWrite v (tsv_line r ++ NL)) s1).
    destruct (IH rs' (if is_directory entry then fileNum else (fileNum + 1)%Z)
                 (if is_directory entry then (dirNum + 1)%Z else dirNum)
                 s2 eq_refl)
      as (counts & s' & evs & Hloop & Htr & Hw & Hq).
    exists counts, s', (evs1 ++ EvWrite v (tsv_line r ++ NL) :: evs)%list.
    split; [destruct (is_directory entry); exact Hloop|].
    split; [|split].
    + rewrite Htr. unfold s2. simpl. rewrite Htr1.
      now rewrite <- !app_assoc.
    + intros acc. rewrite written_from_app, Hw1. simpl.
      rewrite String.eqb_refl. simpl. rewrite Hw.
      now rewrite append_assoc.
    + intros q acc Hne. rewrite written_from_app, Hw1. simpl.
      rewrite Hne. now apply Hq.
Qed.

(** When the checks pass and every entry of the walk is captured,
    [initialize] returns and the verification file holds the encoding of the
    snapshot of the captured records. *)
Lemma initialize_writes_encode os dirPath vFilePath rFilePath hashF s es rs :
  fs_exists os dirPath = true ->
  contains vFilePath dirPath = false ->
  contains rFilePath dirPath = false ->
  String.eqb vFilePath rFilePath = false ->
  contains rFilePath ".txt" = true ->
  fs_walk os dirPath = Some es ->
  capture_all os hashF es = Some rs ->
  exists s',
    initialize os dirPath vFilePath rFilePath hashF s = Ok tt s'
    /\ written (trace s') vFilePath
       = Some (encode {| monitored := dirPath; hashName := hashF;
                         entries := rs |}).
Proof.
  intros He Hv Hr Hne Htxt Hwalk Hcap.
  unfold initialize, bind, now, when, fail_with, ofstream_open, write_endl,
    write, recursive_directory_iterator, log, ret.
  rewrite He, Hv, Hr, Hne, Htxt, Hwalk. simpl.
  match goal with
  | |- context [initialize_loop os es vFilePath hashF 0 0 ?st] =>
      destruct (initialize_loop_written os hashF vFilePath es rs 0%Z 0%Z st
                  Hcap)
        as ([fileNum dirNum] & s1 & evs & Hloop & Htr & Hw & Hq);
      rewrite Hloop
  end.
  eexists. split; [reflexivity|].
  unfold written. simpl. rewrite Htr. simpl.
  rewrite <- !app_assoc. rewrite written_from_app. simpl.
  rewrite String.eqb_refl. simpl.
  rewrite written_from_app, Hw. simpl.
  rewrite String.eqb_sym, Hne. unfold encode. simpl.
  f_equal. unfold NL. repeat (rewrite !append_assoc; simpl). reflexivity.
Qed.

(** ** Encoding and decoding a snapshot *)

Lemma clean_lines es :
  forallb clean_entry es = true ->
  forallb (fun l => negb (has_char newline l)) (map tsv_line es) = true.
Proof.
  rewrite !forallb_forall. intros H l Hl.
  apply in_map_iff in Hl as [r [<- Hr]].
  now rewrite tsv_line_no_newline by auto.
Qed.

Lemma clean_keys es :
  forallb clean_entry es = true ->
  map key_of (map tsv_line es) = map fm_path es.
Proof.
  intros H. rewrite map_map. apply map_ext_in. intros r Hr.
  apply key_of_tsv_line. rewrite forallb_forall in H. auto.
Qed.

Lemma decode_encode s :
  clean_snapshot s = true ->
  decode (encode s)
  = Some (monitored s, hashName s, dict_of_lines (map tsv_line (entries s))).
Proof.
  unfold clean_snapshot. intros H.
  apply andb_true_iff in H as [H He]. apply andb_true_iff in H as [Hm Hh].
  apply negb_true_iff in Hm, Hh.
  unfold encode. rewrite decode_lines.
  - reflexivity.
  - reflexivity.
  - now rewrite has_char_app, Hm.
  - now rewrite has_char_app, Hh.
  - reflexivity.
  - now apply clean_lines.
Qed.

(** C3 (as stated, refuted): a snapshot whose one entry has a tab in its
    path, the file [a<TAB>b] of [/data], is not reproduced: the decoded
    dictionary has no entry under that path. *)
Lemma tab_in_path_breaks_round_trip :
  NoDup (map fm_path (entries (example_snapshot ("/data/a" ++ TAB ++ "b"))))
  /\ ~ reproduces (example_snapshot ("/data/a" ++ TAB ++ "b"))
         (decode (encode (example_snapshot ("/data/a" ++ TAB ++ "b")))).
Proof.
  split; [repeat constructor; simpl; tauto|].
  intros [d [H1 [H2 _]]].
  destruct (H2 _ (or_introl eq_refl)) as [line [Hf _]].
  vm_compute in H1. inversion H1; subst d. vm_compute in Hf. discriminate.
Qed.

(** C3 (amended): for every snapshot with distinct paths in which no field
    holds a tab or a newline and neither header field holds a newline,
    decoding the text of its encoding gives back the monitored directory,
    the hash-function name, and a dictionary that has, under the path of
    every entry, a line whose seven fields are those of the entry, and
    nothing under any other path. *)
Theorem decode_encode_round_trip (s : Snapshot) :
  clean_snapshot s = true ->
  NoDup (map fm_path (entries s)) ->
  reproduces s (decode (encode s)).
Proof.
  intros Hc Hnd. pose proof Hc as Hc'. unfold clean_snapshot in Hc'.
  apply andb_true_iff in Hc' as [_ He].
  exists (dict_of_lines (map tsv_line (entries s))).
  split; [now apply decode_encode|]. split.
  - intros r Hr. exists (tsv_line r). split.
    + rewrite <- (key_of_tsv_line r)
        by (rewrite forallb_forall in He; auto).
      apply fold_add_present.
      * now rewrite clean_keys.
      * now apply in_map.
    + apply split_tab_tsv_line. rewrite forallb_forall in He. auto.
  - intros k Hk. apply SMapF.in_find_iff in Hk.
    destruct (SMap.find k (dict_of_lines (map tsv_line (entries s))))
      as [v|] eqn:E; [|contradiction].
    apply fold_add_origin in E as [[Hin Hkey]|E].
    + apply in_map_iff in Hin as [r [<- Hr]]. exists r. split; [assumption|].
      rewrite <- Hkey. symmetry. apply key_of_tsv_line.
      rewrite forallb_forall in He. auto.
    + rewrite SMapF.empty_o in E. discriminate.
Qed.

Lemma decode_encode_round_trip_witness :
  reproduces (example_snapshot "/data/a.txt")
    (decode (encode (example_snapshot "/data/a.txt"))).
Proof.
  apply decode_encode_round_trip;
    [reflexivity | repeat constructor; simpl; tauto].
Defined.

(** ** The comparison of two dictionaries *)

Lemma elements_find (m : SMap.t string) k l :
  In (k, l) (SMap.elements m) <-> SMap.find k m = Some l.
Proof.
  rewrite <- SMapF.find_mapsto_iff, SMapF.elements_mapsto_iff.
  rewrite InA_alt. split.
  - intros H. exists (k, l). split; [split; reflexivity | assumption].
  - intros [[k' l'] [[Hk Hl] Hin]]. simpl in Hk, Hl.
    unfold String_as_OT.eq in Hk. now subst.
Qed.

Lemma mem_key_true k d : mem_key k d = true <-> exists l, SMap.find k d = Some l.
Proof.
  unfold mem_key. destruct (SMap.find k d) as [l|].
  - split; eauto.
  - split; [discriminate | intros [l H]; discriminate].
Qed.

Lemma at_key_find k d l : SMap.find k d = Some l -> at_key d k = l.
Proof. unfold at_key. now intros ->. Qed.

Lemma classify_baseline_fold (d : SMap.t string) l : forall changed deleted,
  fold_left
    (fun '(changed, deleted) '(fileName, vFileLine) =>
       if mem_key fileName d then
         let dirFileLine := at_key d fileName in
         if negb (String.eqb vFileLine dirFileLine)
         then ((changed ++ [fileName])%list, deleted)
         else (changed, deleted)
       else (changed, (deleted ++ [fileName])%list))
    l (changed, deleted)
  = ((changed ++ map fst (filter (is_changed d) l))%list,
     (deleted ++ map fst (filter (is_absent d) l))%list).
Proof.
  induction l as [|[k line] l IH]; intros changed deleted; simpl.
  - now rewrite !app_nil_r.
  - unfold is_changed, is_absent; simpl.
    destruct (mem_key k d); simpl.
    + destruct (String.eqb line (at_key d k)); simpl; rewrite IH.
      * reflexivity.
      * now rewrite <- app_assoc.
    + rewrite IH. now rewrite <- app_assoc.
Qed.

Lemma classify_baseline_keys v d :
  classify_baseline v d
  = (keys_where (is_changed d) v, keys_where (is_absent d) v).
Proof. unfold classify_baseline. now rewrite classify_baseline_fold. Qed.

Lemma classify_current_fold (v : SMap.t string) l : forall new,
  fold_left
    (fun new '(fileName, _) =>
       if mem_key fileName v then new else (new ++ [fileName])%list)
    l new
  = (new ++ map fst (filter (is_absent v) l))%list.
Proof.
  induction l as [|[k line] l IH]; intros new; simpl.
  - now rewrite app_nil_r.
  - unfold is_absent; simpl. destruct (mem_key k v); simpl; rewrite IH.
    + reflexivity.
    + now rewrite <- app_assoc.
Qed.

Lemma classify_current_keys v d :
  classify_current v d = keys_where (is_absent v) d.
Proof. unfold classify_current. now rewrite classify_current_fold. Qed.

Lemma keys_where_In f d p :
  In p (keys_where f d)
  <-> exists l, SMap.find p d = Some l /\ f (p, l) = true.
Proof.
  unfold keys_where. rewrite in_map_iff. split.
  - intros [[k l] [<- H]]. apply filter_In in H as [H1 H2].
    exists l. split; [now apply elements_find | assumption].
  - intros [l [H1 H2]]. exists (p, l). split; [reflexivity|].
    apply filter_In. split; [now apply elements_find | assumption].
Qed.

(** The order of the lists *)

Lemma filter_strongly_sorted {A} (R : A -> A -> Prop) f l :
  StronglySorted R l -> StronglySorted R (filter f l).
Proof.
  induction 1 as [|a l Hs IH Hf]; simpl; [constructor|].
  destruct (f a); [|assumption].
  constructor; [assumption|].
  rewrite Forall_forall in *. intros x Hx.
  apply filter_In in Hx as [Hx _]. auto.
Qed.

Lemma keys_where_sorted f (d : SMap.t string) :
  StronglySorted String_as_OT.lt (keys_where f d).
Proof.
  unfold keys_where.
  assert (H : StronglySorted (@SMap.lt_key string)
                (filter f (SMap.elements d))).
  { apply filter_strongly_sorted. apply Sorted_StronglySorted.
    - intros x y z. apply String_as_OT.lt_trans.
    - apply SMap.elements_3. }
  induction H as [|a l Hs IH Hf]; simpl; constructor; [assumption|].
  rewrite Forall_forall in *. intros x Hx.
  apply in_map_iff in Hx as [y [<- Hy]]. exact (Hf y Hy).
Qed.

(** The warnings *)


Lemma wf_line_fields k line :
  wf_line k line = true ->
  exists a1 a2 a3 a4 a5 a6, split_tab line = [k; a1; a2; a3; a4; a5; a6].
Proof.
  unfold wf_line.
  destruct (split_tab line) as [|k' [|a1 [|a2 [|a3 [|a4 [|a5 [|a6 [|]]]]]]]];
    try discriminate.
  intros H. apply String.eqb_eq in H. subst k'. eauto 7.
Qed.




Lemma changed_both v d p :
  In p (keys_where (is_changed d) v) ->
  exists vl dl, SMap.find p v = Some vl /\ SMap.find p d = Some dl
                /\ vl <> dl.
Proof.
  intros H. apply keys_where_In in H as [vl [Fv Hc]].
  unfold is_changed in Hc. simpl in Hc.
  apply andb_true_iff in Hc as [Hm Hne].
  apply mem_key_true in Hm as [dl Fd].
  rewrite (at_key_find _ _ _ Fd) in Hne.
  apply negb_true_iff, String.eqb_neq in Hne. eauto.
Qed.


Lemma is_changed_In v d p vl dl :
  SMap.find p v = Some vl -> SMap.find p d = Some dl -> vl <> dl ->
  In p (keys_where (is_changed d) v).
Proof.
  intros Fv Fd Hne. apply keys_where_In. exists vl. split; [assumption|].
  unfold is_changed. simpl. apply andb_true_iff. split.
  - apply mem_key_true. eauto.
  - rewrite (at_key_find _ _ _ Fd). now apply negb_true_iff, String.eqb_neq.
Qed.

(** Equal contents give equal results, however the dictionaries were
    filled. *)

Lemma eqlistA_eqke_eq (l l' : list (string * string)) :
  eqlistA (@SMapO.O.eqke string) l l' -> l = l'.
Proof.
  induction 1 as [|[k e] [k' e'] l l' [Hk He] _ IH]; [reflexivity|].
  simpl in Hk, He. unfold String_as_OT.eq in Hk. now subst.
Qed.

Lemma Equal_elements (m m' : SMap.t string) :
  SMap.Equal m m' -> SMap.elements m = SMap.elements m'.
Proof.
  intros H. apply eqlistA_eqke_eq. now apply SMapO.elements_Equal_eqlistA.
Qed.

Lemma Equal_mem_key (m m' : SMap.t string) k :
  SMap.Equal m m' -> mem_key k m = mem_key k m'.
Proof. intros H. unfold mem_key. now rewrite (H k). Qed.

Lemma Equal_at_key (m m' : SMap.t string) k :
  SMap.Equal m m' -> at_key m k = at_key m' k.
Proof. intros H. unfold at_key. now rewrite (H k). Qed.

Lemma Equal_changed_loop v v' d d' changed : forall w,
  SMap.Equal v v' -> SMap.Equal d d' ->
  changed_loop v d changed w = changed_loop v' d' changed w.
Proof.
  induction changed as [|p changed IH]; intros w Hv Hd; [reflexivity|].
  simpl. unfold changed_warnings.
  rewrite (Equal_at_key _ _ p Hv), (Equal_at_key _ _ p Hd).
  destruct (field_warnings p field_names (split_tab (at_key v' p))
              (split_tab (at_key d' p))); [|reflexivity].
  now apply IH.
Qed.

Lemma diff_Equal v v' d d' :
  SMap.Equal v v' -> SMap.Equal d d' -> diff v d = diff v' d'.
Proof.
  intros Hv Hd. unfold diff.
  rewrite !classify_baseline_keys, !classify_current_keys.
  unfold keys_where.
  rewrite <- (Equal_elements _ _ Hv), <- (Equal_elements _ _ Hd).
  rewrite (filter_ext (is_changed d) (is_changed d')),
    (filter_ext (is_absent d) (is_absent d')),
    (filter_ext (is_absent v) (is_absent v')).
  - now rewrite (Equal_changed_loop v v' d d').
  - intros [k l]. unfold is_absent. simpl. now rewrite (Equal_mem_key _ _ k Hv).
  - intros [k l]. unfold is_absent. simpl. now rewrite (Equal_mem_key _ _ k Hd).
  - intros [k l]. unfold is_changed. simpl.
    now rewrite (Equal_mem_key _ _ k Hd), (Equal_at_key _ _ k Hd).
Qed.

Lemma diff_lists v d r :
  diff v d = Some r ->
  changedFiles r = keys_where (is_changed d) v
  /\ deletedFiles r = keys_where (is_absent d) v
  /\ newFiles r = keys_where (is_absent v) d.
Proof.
  unfold diff. rewrite classify_baseline_keys, classify_current_keys.
  destruct (changed_loop v d _ _); [|discriminate].
  intros H. inversion H. simpl. auto.
Qed.

(** Lines too short for the comparison *)

Lemma field_warnings_none p fs a b i what :
  In (i, what) fs ->
  nth_error a i = None \/ nth_error b i = None ->
  field_warnings p fs a b = None.
Proof.
  induction fs as [|[j w] fs IH]; intros Hin Hn; [contradiction|].
  simpl. destruct Hin as [E|Hin].
  - inversion E; subst j w. unfold field_warning.
    destruct Hn as [-> | Hn]; [reflexivity|].
    rewrite Hn. now destruct (nth_error a i).
  - destruct (field_warning p w j a b); [|reflexivity].
    now rewrite (IH Hin Hn).
Qed.

Lemma changed_loop_none v d ch p : forall w,
  In p ch -> changed_warnings v d p = None ->
  changed_loop v d ch w = None.
Proof.
  induction ch as [|q ch IH]; intros w Hin Hn; [contradiction|].
  simpl. destruct Hin as [->|Hin]; [now rewrite Hn|].
  destruct (changed_warnings v d q); [now apply IH | reflexivity].
Qed.

Lemma changed_loop_some v d ch : forall w,
  (forall p, In p ch -> exists x, changed_warnings v d p = Some x) ->
  exists w', changed_loop v d ch w = Some w'.
Proof.
  induction ch as [|q ch IH]; intros w H; simpl; [eauto|].
  destruct (H q (or_introl eq_refl)) as [x ->].
  apply IH. intros p Hp. apply H. now right.
Qed.

(** The warnings, for every pair of dictionaries *)

Lemma field_warnings_changes p a b :
  7 <= List.length a -> 7 <= List.length b ->
  field_warnings p field_names a b = Some (field_changes p a b).
Proof.
  intros Ha Hb.
  destruct a as [|a0 [|a1 [|a2 [|a3 [|a4 [|a5 [|a6 ra]]]]]]];
    simpl in Ha; try lia.
  destruct b as [|b0 [|b1 [|b2 [|b3 [|b4 [|b5 [|b6 rb]]]]]]];
    simpl in Hb; try lia.
  unfold field_changes, field_change, field_names, field_warnings,
    field_warning. simpl.
  destruct (String.eqb a1 b1), (String.eqb a2 b2), (String.eqb a3 b3),
    (String.eqb a4 b4), (String.eqb a5 b5), (String.eqb a6 b6);
    reflexivity.
Qed.

Lemma field_warnings_long p a b w :
  field_warnings p field_names a b = Some w ->
  7 <= List.length a /\ 7 <= List.length b.
Proof.
  intros H. split.
  - destruct (le_lt_dec 7 (List.length a)) as [Hl|Hl]; [assumption|].
    rewrite (field_warnings_none p field_names a b 6 " hash is different: ")
      in H; [discriminate | simpl; auto 10 |].
    left. apply nth_error_None. lia.
  - destruct (le_lt_dec 7 (List.length b)) as [Hl|Hl]; [assumption|].
    rewrite (field_warnings_none p field_names a b 6 " hash is different: ")
      in H; [discriminate | simpl; auto 10 |].
    right. apply nth_error_None. lia.
Qed.

Lemma changed_warnings_changes v d p w :
  changed_warnings v d p = Some w ->
  w = field_changes p (split_tab (at_key v p)) (split_tab (at_key d p)).
Proof.
  unfold changed_warnings. intros H.
  destruct (field_warnings_long _ _ _ _ H) as [Ha Hb].
  rewrite (field_warnings_changes _ _ _ Ha Hb) in H. now inversion H.
Qed.

Lemma changed_loop_changes v d ch : forall w w',
  changed_loop v d ch w = Some w' ->
  w' = (w ++ flat_map
               (fun p => field_changes p (split_tab (at_key v p))
                           (split_tab (at_key d p))) ch)%list.
Proof.
  induction ch as [|p ch IH]; intros w w' H; simpl in H.
  - inversion H. simpl. now rewrite app_nil_r.
  - destruct (changed_warnings v d p) as [x|] eqn:E; [|discriminate].
    apply changed_warnings_changes in E. subst x.
    apply IH in H. subst w'. simpl. now rewrite <- app_assoc.
Qed.

Lemma diff_warnings v d r :
  diff v d = Some r -> warnings r = report_warnings v d r.
Proof.
  intros Hr. destruct (diff_lists _ _ _ Hr) as (Ec & Ed & En).
  unfold report_warnings. rewrite Ec, Ed, En.
  unfold diff in Hr. rewrite classify_baseline_keys, classify_current_keys in Hr.
  match type of Hr with
  | context [changed_loop v d ?ch ?w] =>
      destruct (changed_loop v d ch w) as [w'|] eqn:E; [|discriminate]
  end.
  apply changed_loop_changes in E. subst w'.
  inversion Hr. simpl. now rewrite <- app_assoc.
Qed.

Lemma field_change_In p what o n :
  o <> n -> In (p ++ what ++ o ++ " " ++ n) (field_change p what o n).
Proof.
  intros H. unfold field_change. apply String.eqb_neq in H. rewrite H.
  now left.
Qed.

Lemma report_warnings_changed v d r p w :
  In p (changedFiles r) ->
  In w (field_changes p (split_tab (at_key v p)) (split_tab (at_key d p))) ->
  In w (report_warnings v d r).
Proof.
  intros Hp Hw. unfold report_warnings.
  apply in_or_app. right. apply in_or_app. right.
  apply in_flat_map. exists p. split; assumption.
Qed.

(** Where the comparison is defined *)

Lemma forallb_false {A} (f : A -> bool) l :
  forallb f l = false -> exists x, In x l /\ f x = false.
Proof.
  induction l as [|a l IH]; simpl; [discriminate|].
  destruct (f a) eqn:E; simpl.
  - intros H. destruct (IH H) as [x [Hx Hf]]. eauto.
  - intros _. eauto.
Qed.

Lemma comparable_long v d p vl dl :
  comparable v d = true ->
  SMap.find p v = Some vl -> SMap.find p d = Some dl -> vl <> dl ->
  7 <= List.length (split_tab vl) /\ 7 <= List.length (split_tab dl).
Proof.
  unfold comparable. rewrite forallb_forall. intros H Fv Fd Hne.
  apply elements_find in Fv. specialize (H _ Fv). simpl in H.
  rewrite Fd in H. apply String.eqb_neq in Hne. rewrite Hne in H.
  simpl in H. apply andb_true_iff in H as [H1 H2].
  unfold long_enough in *. split; now apply Nat.leb_le.
Qed.

Lemma comparable_diff v d :
  comparable v d = true -> exists r, diff v d = Some r.
Proof.
  intros Hc. unfold diff.
  rewrite classify_baseline_keys, classify_current_keys.
  match goal with
  | |- context [changed_loop v d ?ch ?w] =>
      destruct (changed_loop_some v d ch w) as [w' Hw]
  end.
  - intros p Hp. apply changed_both in Hp as (vl & dl & Fv & Fd & Hne).
    destruct (comparable_long _ _ _ _ _ Hc Fv Fd Hne) as [Ha Hb].
    unfold changed_warnings.
    rewrite (at_key_find _ _ _ Fv), (at_key_find _ _ _ Fd).
    rewrite (field_warnings_changes _ _ _ Ha Hb). eauto.
  - rewrite Hw. eauto.
Qed.

Lemma incomparable_diff v d : comparable v d = false -> diff v d = None.
Proof.
  intros Hc. unfold comparable in Hc.
  apply forallb_false in Hc as [[p vl] [Hin Hf]].
  apply elements_find in Hin.
  destruct (SMap.find p d) as [dl|] eqn:Fd; [|discriminate].
  apply orb_false_iff in Hf as [Hne Hlen].
  apply String.eqb_neq in Hne.
  unfold diff. rewrite classify_baseline_keys, classify_current_keys.
  erewrite changed_loop_none; [reflexivity | |].
  - apply is_changed_In with vl dl; eassumption.
  - unfold changed_warnings.
    rewrite (at_key_find _ _ _ Hin), (at_key_find _ _ _ Fd).
    apply field_warnings_none with (i := 6) (what := " hash is different: ").
    + simpl. auto 10.
    + unfold long_enough in Hlen.
      apply andb_false_iff in Hlen as [H|H]; [left|right];
        apply Nat.leb_gt in H; apply nth_error_None; lia.
Qed.

Lemma diff_disjoint v d r p :
  diff v d = Some r ->
  ~ (In p (deletedFiles r) /\ In p (newFiles r))
  /\ ~ (In p (deletedFiles r) /\ In p (changedFiles r))
  /\ ~ (In p (newFiles r) /\ In p (changedFiles r)).
Proof.
  intros Hr. destruct (diff_lists _ _ _ Hr) as (-> & -> & ->).
  repeat split; intros [H1 H2].
  - apply keys_where_In in H1 as [l [F1 A1]].
    apply keys_where_In in H2 as [l' [F2 A2]].
    unfold is_absent in A2. simpl in A2. apply negb_true_iff in A2.
    assert (mem_key p v = true) by (apply mem_key_true; eauto).
    congruence.
  - apply keys_where_In in H1 as [l [F1 A1]].
    apply changed_both in H2 as (vl & dl & Fv & Fd & _).
    unfold is_absent in A1. simpl in A1. apply negb_true_iff in A1.
    assert (mem_key p d = true) by (apply mem_key_true; eauto).
    congruence.
  - apply keys_where_In in H1 as [l [F1 A1]].
    apply changed_both in H2 as (vl & dl & Fv & Fd & _).
    unfold is_absent in A1. simpl in A1. apply negb_true_iff in A1.
    assert (mem_key p v = true) by (apply mem_key_true; eauto).
    congruence.
Qed.

Lemma records_differ p a1 a2 a3 a4 a5 a6 b1 b2 b3 b4 b5 b6 :
  [p; a1; a2; a3; a4; a5; a6] <> [p; b1; b2; b3; b4; b5; b6] ->
  field_changes p [p; a1; a2; a3; a4; a5; a6] [p; b1; b2; b3; b4; b5; b6]
  <> [].
Proof.
  intros Hne. unfold field_changes, field_change. simpl.
  destruct (String.eqb_spec a1 b1) as [E1|N1]; [|discriminate].
  destruct (String.eqb_spec a2 b2) as [E2|N2]; [|discriminate].
  destruct (String.eqb_spec a3 b3) as [E3|N3]; [|discriminate].
  destruct (String.eqb_spec a4 b4) as [E4|N4]; [|discriminate].
  destruct (String.eqb_spec a5 b5) as [E5|N5]; [|discriminate].
  destruct (String.eqb_spec a6 b6) as [E6|N6]; [|discriminate].
  exfalso. apply Hne. now subst.
Qed.

(** C7 (as stated, refuted): a tree that did not change between
    [initialize] and [verify] has a changed path without any discrepancy.
    The tree holds [a.txt] and a file whose name goes on after [a.txt] with a
    tab; the line of the second file is stored under the path of the first,
    so the first is listed as changed, and the fields 1 to 6 of its two
    lines are the same. *)
Lemma unchanged_tree_has_changed_path_without_discrepancy :
  (exists s,
     initialize (tab_os None) "/data" "/srv/snap" "/srv/report.txt" "md5"
       initial_state = Ok tt s
     /\ written (trace s) "/srv/snap" = Some tab_text)
  /\ (exists s,
        verify (tab_os (Some tab_text)) "/srv/snap" "/srv/report.txt"
          initial_state = Ok tt s
        /\ written (trace s) "/srv/report.txt"
           = Some (unlines (verify_report "/data" "/srv/snap" "md5" 2 0
                              tab_report)))
  /\ diff (read_store tab_records) (walk_store tab_records)
     = Some tab_report
  /\ In "/data/a.txt" (changedFiles tab_report)
  /\ field_changes "/data/a.txt"
       (split_tab (at_key (read_store tab_records) "/data/a.txt"))
       (split_tab (at_key (walk_store tab_records) "/data/a.txt")) = [].
Proof.
  split; [|split; [|split; [|split; [now left|]]]].
  - eexists. split; vm_compute; reflexivity.
  - eexists. split; vm_compute; reflexivity.
  - vm_compute. reflexivity.
  - vm_compute. reflexivity.
Qed.

(** C7 (amended): on two dictionaries in which any two different lines of
    one path have seven fields or more each, the comparison returns a
    report. In every report it returns, no path is in two of the lists of
    deleted, new and changed files; and every changed path whose two lines
    are records of that path, seven fields of which the first is the path,
    has at least one discrepancy among size, owner, group, access rights,
    last modified time and hash, and all its discrepancies are among the
    warnings. *)
Theorem diff_classes_disjoint_and_changed_differs (v d : SMap.t string) :
  (comparable v d = true -> exists r, diff v d = Some r)
  /\
  (forall r, diff v d = Some r ->
     (forall p,
        ~ (In p (deletedFiles r) /\ In p (newFiles r))
        /\ ~ (In p (deletedFiles r) /\ In p (changedFiles r))
        /\ ~ (In p (newFiles r) /\ In p (changedFiles r)))
     /\
     (forall p vl dl,
        In p (changedFiles r) ->
        SMap.find p v = Some vl -> SMap.find p d = Some dl ->
        wf_line p vl = true -> wf_line p dl = true ->
        field_changes p (split_tab vl) (split_tab dl) <> []
        /\ incl (field_changes p (split_tab vl) (split_tab dl))
                (warnings r))).
Proof.
  split; [apply comparable_diff|].
  intros r Hr. split; [intros p; exact (diff_disjoint v d r p Hr)|].
  intros p vl dl Hp Fv Fd Wv Wd.
  pose proof Hp as Hp'.
  rewrite (proj1 (diff_lists _ _ _ Hr)) in Hp'.
  apply changed_both in Hp' as (vl' & dl' & Fv' & Fd' & Hne).
  rewrite Fv in Fv'. rewrite Fd in Fd'.
  inversion Fv'; subst vl'. inversion Fd'; subst dl'.
  split.
  - destruct (wf_line_fields _ _ Wv) as (a1 & a2 & a3 & a4 & a5 & a6 & Ea).
    destruct (wf_line_fields _ _ Wd) as (b1 & b2 & b3 & b4 & b5 & b6 & Eb).
    rewrite Ea, Eb. apply records_differ.
    intros E. apply Hne. apply split_tab_inj. now rewrite Ea, Eb.
  - intros w Hw. rewrite (diff_warnings _ _ _ Hr).
    apply report_warnings_changed with (p := p); [assumption|].
    now rewrite (at_key_find _ _ _ Fv), (at_key_find _ _ _ Fd).
Qed.

Lemma diff_classes_disjoint_and_changed_differs_witness :
  diff example_before example_after = Some example_report
  /\ (forall p,
        ~ (In p (deletedFiles example_report)
           /\ In p (newFiles example_report))
        /\ ~ (In p (deletedFiles example_report)
              /\ In p (changedFiles example_report))
        /\ ~ (In p (newFiles example_report)
              /\ In p (changedFiles example_report)))
  /\ field_changes "/data/e.txt"
       (split_tab (at_key example_before "/data/e.txt"))
       (split_tab (at_key example_after "/data/e.txt")) <> []
  /\ incl (field_changes "/data/e.txt"
             (split_tab (at_key example_before "/data/e.txt"))
             (split_tab (at_key example_after "/data/e.txt")))
          (warnings example_report).
Proof.
  assert (Hr : diff example_before example_after = Some example_report)
    by (vm_compute; reflexivity).
  destruct (diff_classes_disjoint_and_changed_differs
              example_before example_after) as [Hex Hall].
  destruct (Hex eq_refl) as [r0 _].
  destruct (Hall example_report Hr) as [Hdis Hch].
  split; [exact Hr|]. split; [exact Hdis|].
  apply (Hch "/data/e.txt"
           (at_key example_before "/data/e.txt")
           (at_key example_after "/data/e.txt")).
  - simpl. auto.
  - vm_compute. reflexivity.
  - vm_compute. reflexivity.
  - vm_compute. reflexivity.
  - vm_compute. reflexivity.
Defined.

(** C8 (as stated, refuted): on a tree that holds [x], [z] and a file whose
    name is [x], a newline and [y], the records of [z] before and now differ
    in the hash alone, and nothing is reported: the line [x] of one field
    that the newline leaves in the verification file is stored under the
    path of [x], whose comparison indexes past its end. The verification has
    undefined behaviour and writes no report. *)
Lemma digest_change_lost_beside_newline_name :
  (exists vl dl,
     SMap.find "/data/z" (read_store (entries newline_base)) = Some vl
     /\ SMap.find "/data/z" (walk_store newline_records) = Some dl
     /\ split_tab vl
        = fields (example_entry "/data/z" "0CC175B9C0F1B6A831C399E269772661")
     /\ split_tab dl = fields (example_entry "/data/z" example_digest))
  /\ diff (read_store (entries newline_base)) (walk_store newline_records)
     = None
  /\ capture_all newline_os "md5" newline_tree = Some newline_records
  /\ exists s,
       verify newline_os "/srv/snap" "/srv/report.txt" initial_state
       = Undefined s
       /\ written (trace s) "/srv/report.txt" = None.
Proof.
  split; [|split; [|split]].
  - do 2 eexists. repeat split; vm_compute; reflexivity.
  - vm_compute. reflexivity.
  - vm_compute. reflexivity.
  - eexists. split; vm_compute; reflexivity.
Qed.

(** C8 (amended): take a path held by both dictionaries whose two lines are
    records of seven fields. Where the comparison is defined it returns a
    report; and in every report it returns, the path is listed as changed
    with its hash discrepancy when the two hashes differ (its only
    discrepancy when the other five fields agree), and with its size or its
    last modified time discrepancy when these differ, whatever the hash. *)
Theorem diff_reports_digest_and_metadata_changes
    (v d : SMap.t string) (p vl dl : string)
    (sz ow gp pm tm h sz' ow' gp' pm' tm' h' : string) :
  SMap.find p v = Some vl -> SMap.find p d = Some dl ->
  split_tab vl = [p; sz; ow; gp; pm; tm; h] ->
  split_tab dl = [p; sz'; ow'; gp'; pm'; tm'; h'] ->
  (comparable v d = true -> exists r, diff v d = Some r)
  /\
  (forall r, diff v d = Some r ->
     (h <> h' ->
      In p (changedFiles r)
      /\ In (p ++ " hash is different: " ++ h ++ " " ++ h') (warnings r))
     /\ (sz = sz' -> ow = ow' -> gp = gp' -> pm = pm' -> tm = tm' ->
         h <> h' ->
         changed_warnings v d p
         = Some [p ++ " hash is different: " ++ h ++ " " ++ h'])
     /\ (sz <> sz' ->
         In p (changedFiles r)
         /\ In (p ++ " file size is different: " ++ sz ++ " " ++ sz')
               (warnings r))
     /\ (tm <> tm' ->
         In p (changedFiles r)
         /\ In (p ++ " last modified time is different: " ++ tm ++ " " ++ tm')
               (warnings r))).
Proof.
  intros Fv Fd Ea Eb. split; [apply comparable_diff|].
  intros r Hr.
  assert (Hfield : forall w,
             vl <> dl ->
             In w (field_changes p (split_tab vl) (split_tab dl)) ->
             In p (changedFiles r) /\ In w (warnings r)).
  { intros w Hne Hw.
    assert (Hc : In p (changedFiles r)).
    { rewrite (proj1 (diff_lists _ _ _ Hr)).
      now apply is_changed_In with vl dl. }
    split; [assumption|].
    rewrite (diff_warnings _ _ _ Hr).
    apply report_warnings_changed with (p := p); [assumption|].
    now rewrite (at_key_find _ _ _ Fv), (at_key_find _ _ _ Fd). }
  rewrite Ea, Eb in Hfield.
  split; [|split; [|split]].
  - intros Hne. apply Hfield.
    + intros E. rewrite E, Eb in Ea. congruence.
    + unfold field_changes. simpl. rewrite !in_app_iff.
      do 5 right. exact (field_change_In p " hash is different: " h h' Hne).
  - intros -> -> -> -> -> Hne. unfold changed_warnings.
    rewrite (at_key_find _ _ _ Fv), (at_key_find _ _ _ Fd), Ea, Eb.
    rewrite field_warnings_changes by (simpl; lia).
    unfold field_changes, field_change. simpl.
    rewrite !String.eqb_refl. apply String.eqb_neq in Hne. now rewrite Hne.
  - intros Hne. apply Hfield.
    + intros E. rewrite E, Eb in Ea. congruence.
    + unfold field_changes. simpl. rewrite !in_app_iff.
      left. exact (field_change_In p " file size is different: " sz sz' Hne).
  - intros Hne. apply Hfield.
    + intros E. rewrite E, Eb in Ea. congruence.
    + unfold field_changes. simpl. rewrite !in_app_iff.
      do 4 right. left.
      exact (field_change_In p " last modified time is different: " tm tm'
               Hne).
Qed.

Lemma diff_reports_digest_and_metadata_changes_witness :
  diff example_before example_after = Some example_report
  /\ In "/data/a.txt" (changedFiles example_report)
  /\ In ("/data/a.txt" ++ " hash is different: " ++ "X" ++ " " ++ "W")
        (warnings example_report).
Proof.
  assert (Hr : diff example_before example_after = Some example_report)
    by (vm_compute; reflexivity).
  split; [exact Hr|].
  destruct (diff_reports_digest_and_metadata_changes
              example_before example_after "/data/a.txt"
              (at_key example_before "/data/a.txt")
              (at_key example_after "/data/a.txt")
              "5" "alice" "alice" "644" "1970-01-01 00:00:07" "X"
              "5" "alice" "alice" "600" "1970-01-01 00:00:07" "W"
              eq_refl eq_refl eq_refl eq_refl)
    as [Hex Hall].
  destruct (Hex eq_refl) as [r0 _].
  destruct (Hall example_report Hr) as (Hh & _).
  apply Hh. discriminate.
Defined.

(** C9 (as stated, refuted): there are two identical inputs on which no
    report is produced at all. On a tree that holds [x] and a file whose
    name is [x], a newline and [y], [initialize] returns; the verification
    of the very same tree against the file it wrote has undefined
    behaviour and writes no report, as the comparison of its two
    dictionaries indexes a line of one field. *)
Lemma unchanged_tree_gives_no_report :
  (exists s,
     initialize (short_os None) "/data" "/srv/snap" "/srv/report.txt" "md5"
       initial_state = Ok tt s
     /\ written (trace s) "/srv/snap" = Some short_text)
  /\ (exists s,
        verify (short_os (Some short_text)) "/srv/snap" "/srv/report.txt"
          initial_state = Undefined s
        /\ written (trace s) "/srv/report.txt" = None)
  /\ diff (read_store short_records) (walk_store short_records) = None.
Proof.
  split; [|split].
  - eexists. split; vm_compute; reflexivity.
  - eexists. split; vm_compute; reflexivity.
  - vm_compute. reflexivity.
Qed.

(** C9 (amended): the comparison is determined wherever it is defined. On
    two dictionaries in which any two different lines of one path have
    seven fields or more each it returns a report, and on all others it
    returns none. In every report it returns, the lists of deleted, new and
    changed files each run in strictly increasing byte-wise lexicographic
    order of the paths; the warnings are those of the deleted paths, then
    of the new paths, then for each changed path its discrepancies in the
    order size, owner, group, access rights, last modified time, hash; and
    any two dictionaries with the same contents, however they were filled,
    give this same report. *)
Theorem diff_order_is_determined (v d : SMap.t string) :
  (comparable v d = true -> exists r, diff v d = Some r)
  /\ (comparable v d = false -> diff v d = None)
  /\
  (forall r, diff v d = Some r ->
     StronglySorted String_as_OT.lt (deletedFiles r)
     /\ StronglySorted String_as_OT.lt (newFiles r)
     /\ StronglySorted String_as_OT.lt (changedFiles r)
     /\ warnings r = report_warnings v d r
     /\ (forall v' d',
           SMap.Equal v v' -> SMap.Equal d d' -> diff v' d' = Some r)).
Proof.
  split; [apply comparable_diff|]. split; [apply incomparable_diff|].
  intros r Hr. pose proof (diff_warnings _ _ _ Hr) as Hw.
  destruct (diff_lists _ _ _ Hr) as (Ec & Ed & En).
  rewrite Ec, Ed, En.
  repeat split; try apply keys_where_sorted.
  - rewrite Hw. unfold report_warnings. now rewrite Ec, Ed, En.
  - intros v' d' Ev Ed'. now rewrite <- (diff_Equal v v' d d').
Qed.

Lemma diff_order_is_determined_witness :
  diff example_before example_after = Some example_report
  /\ StronglySorted String_as_OT.lt (deletedFiles example_report)
  /\ StronglySorted String_as_OT.lt (newFiles example_report)
  /\ StronglySorted String_as_OT.lt (changedFiles example_report)
  /\ warnings example_report
     = report_warnings example_before example_after example_report
  /\ diff (read_store short_records) (walk_store short_records) = None.
Proof.
  assert (Hr : diff example_before example_after = Some example_report)
    by (vm_compute; reflexivity).
  destruct (diff_order_is_determined example_before example_after)
    as (Hex & _ & Hall).
  destruct (Hex eq_refl) as [r0 _].
  destruct (Hall example_report Hr) as (H1 & H2 & H3 & H4 & _).
  split; [exact Hr|]. repeat (split; [assumption|]).
  apply (proj1 (proj2 (diff_order_is_determined
                         (read_store short_records)
                         (walk_store short_records)))).
  vm_compute. reflexivity.
Defined.

(** ** A verification run on clean data *)














(** * Further properties *)

(** ** The comparison *)

Lemma filter_none {A} (f : A -> bool) l :
  (forall x, In x l -> f x = false) -> filter f l = [].
Proof.
  induction l as [|a l IH]; intros H; [reflexivity|].
  simpl. rewrite (H a) by now left. apply IH. intros x Hx. apply H. now right.
Qed.

Lemma filter_all {A} (f : A -> bool) l :
  (forall x, In x l -> f x = true) -> filter f l = l.
Proof.
  induction l as [|a l IH]; intros H; [reflexivity|].
  simpl. rewrite (H a) by now left. f_equal. apply IH.
  intros x Hx. apply H. now right.
Qed.

Lemma keys_where_none f d :
  (forall k l, SMap.find k d = Some l -> f (k, l) = false) ->
  keys_where f d = [].
Proof.
  intros H. unfold keys_where. rewrite filter_none; [reflexivity|].
  intros [k l] Hin. apply H. now apply elements_find.
Qed.

Lemma keys_where_all f d :
  (forall k l, SMap.find k d = Some l -> f (k, l) = true) ->
  keys_where f d = map fst (SMap.elements d).
Proof.
  intros H. unfold keys_where. rewrite filter_all; [reflexivity|].
  intros [k l] Hin. apply H. now apply elements_find.
Qed.

Lemma diff_same (d : SMap.t string) : diff d d = Some empty_report.
Proof.
  unfold diff. rewrite classify_baseline_keys, classify_current_keys.
  assert (Hc : keys_where (is_changed d) d = []).
  { apply keys_where_none. intros k l F. unfold is_changed. simpl.
    rewrite (at_key_find _ _ _ F), String.eqb_refl. apply andb_false_r. }
  assert (Ha : keys_where (is_absent d) d = []).
  { apply keys_where_none. intros k l F. unfold is_absent. simpl.
    apply negb_false_iff, mem_key_true. eauto. }
  rewrite Hc, Ha. reflexivity.
Qed.

(** X1: comparing a dictionary with one of the same contents returns the
    empty report: no deleted, new or changed file and no warning, whatever
    the lines look like. *)
Theorem diff_of_equal_stores_is_empty (v d : SMap.t string) :
  SMap.Equal v d -> diff v d = Some empty_report.
Proof.
  intros E. rewrite (diff_Equal v d d d E) by reflexivity. apply diff_same.
Qed.

Lemma diff_of_equal_stores_is_empty_witness :
  diff example_baseline example_baseline = Some empty_report.
Proof. apply diff_of_equal_stores_is_empty. intros k. reflexivity. Defined.

Lemma mem_key_In k (d : SMap.t string) : mem_key k d = true <-> SMap.In k d.
Proof.
  rewrite SMapF.in_find_iff. unfold mem_key.
  destruct (SMap.find k d); split; congruence.
Qed.

(** X2: whenever the comparison returns, its three lists are exactly: the
    keys of the baseline that the current dictionary lacks (deleted), the
    keys of the current dictionary that the baseline lacks (new), and the
    keys of both whose two lines differ as text (changed). *)
Theorem diff_lists_characterised (v d : SMap.t string) (r : ChangeReport) :
  diff v d = Some r ->
  forall p,
    (In p (deletedFiles r) <-> SMap.In p v /\ ~ SMap.In p d)
    /\ (In p (newFiles r) <-> SMap.In p d /\ ~ SMap.In p v)
    /\ (In p (changedFiles r) <->
        exists vl dl, SMap.find p v = Some vl /\ SMap.find p d = Some dl
                      /\ vl <> dl).
Proof.
  intros Hr p. destruct (diff_lists _ _ _ Hr) as (-> & -> & ->).
  assert (Habs : forall a b : SMap.t string,
             In p (keys_where (is_absent b) a) <-> SMap.In p a /\ ~ SMap.In p b).
  { intros a b. rewrite keys_where_In. unfold is_absent. simpl.
    rewrite <- !mem_key_In. split.
    - intros [l [F A]]. apply negb_true_iff in A. split.
      + apply mem_key_true. eauto.
      + congruence.
    - intros [Ha Hb]. apply mem_key_true in Ha as [l F]. exists l.
      split; [assumption|]. apply negb_true_iff.
      now destruct (mem_key p b). }
  split; [apply Habs|]. split; [apply Habs|]. split.
  - apply changed_both.
  - intros (vl & dl & Fv & Fd & Hne). now apply is_changed_In with vl dl.
Qed.

Lemma diff_lists_characterised_witness :
  exists r,
    diff example_baseline example_current = Some r
    /\ In "/data/b.txt" (deletedFiles r).
Proof.
  assert (H : diff example_baseline example_current
              = Some {| changedFiles := ["/data/a.txt"];
                        deletedFiles := ["/data/b.txt"];
                        newFiles := ["/data/c.txt"];
                        warnings :=
                          ["/data/b.txt is deleted"; "/data/c.txt is new";
                           "/data/a.txt access rights are different: 644 600";
                           "/data/a.txt hash is different: X W"] |})
    by (vm_compute; reflexivity).
  eexists. split; [exact H|].
  apply (proj1 (diff_lists_characterised _ _ _ H "/data/b.txt")).
  split.
  - apply SMapF.in_find_iff. vm_compute. discriminate.
  - intros Hin. apply SMapF.in_find_iff in Hin. vm_compute in Hin.
    now apply Hin.
Defined.

Lemma sorted_lists_equal l : forall l',
  StronglySorted String_as_OT.lt l -> StronglySorted String_as_OT.lt l' ->
  (forall x, In x l <-> In x l') -> l = l'.
Proof.
  induction l as [|a l IH]; intros l' Hl Hl' H.
  - destruct l' as [|b l']; [reflexivity|].
    exfalso. apply (H b). now left.
  - destruct l' as [|b l'].
    { exfalso. apply (H a). now left. }
    apply StronglySorted_inv in Hl as [Hl Ha].
    apply StronglySorted_inv in Hl' as [Hl' Hb].
    rewrite Forall_forall in Ha, Hb.
    assert (a = b).
    { destruct (proj1 (H a) (or_introl eq_refl)) as [E|Hin]; [now symmetry|].
      destruct (proj2 (H b) (or_introl eq_refl)) as [E|Hin']; [assumption|].
      exfalso. apply (String_as_OT.lt_not_eq (x := a) (y := a));
        [|reflexivity].
      eapply String_as_OT.lt_trans; [apply Ha, Hin' | apply Hb, Hin]. }
    subst b. f_equal. apply IH; try assumption.
    intros x. split; intros Hx.
    + destruct (proj1 (H x) (or_intror Hx)) as [E|Hin]; [|assumption].
      subst x. exfalso.
      apply (String_as_OT.lt_not_eq (Ha a Hx)). reflexivity.
    + destruct (proj2 (H x) (or_intror Hx)) as [E|Hin]; [|assumption].
      subst x. exfalso.
      apply (String_as_OT.lt_not_eq (Hb a Hx)). reflexivity.
Qed.

Lemma field_warnings_swap p fs a b w :
  field_warnings p fs a b = Some w ->
  exists w', field_warnings p fs b a = Some w'.
Proof.
  revert w. induction fs as [|[j what] fs IH]; intros w H; simpl in *.
  - eauto.
  - unfold field_warning in *.
    destruct (nth_error a j), (nth_error b j); try discriminate.
    destruct (field_warnings p fs a b) as [ws|]; [|discriminate].
    destruct (IH ws eq_refl) as [ws' ->]. eauto.
Qed.

Lemma changed_keys_swap v d :
  keys_where (is_changed v) d = keys_where (is_changed d) v.
Proof.
  apply sorted_lists_equal; try apply keys_where_sorted.
  intros p. split; intros H;
    apply changed_both in H as (a & b & Fa & Fb & Hne);
    apply is_changed_In with b a; auto.
Qed.

(** X3: when the comparison of a baseline with a current dictionary
    returns, so does the comparison the other way round; its deleted files
    are the new files of the first, its new files the deleted files of the
    first, and its changed files are the same. *)
Theorem diff_swapped (v d : SMap.t string) (r : ChangeReport) :
  diff v d = Some r ->
  exists r',
    diff d v = Some r'
    /\ deletedFiles r' = newFiles r
    /\ newFiles r' = deletedFiles r
    /\ changedFiles r' = changedFiles r.
Proof.
  intros Hr. destruct (diff_lists _ _ _ Hr) as (Ec & Ed & En).
  unfold diff in *.
  rewrite classify_baseline_keys, classify_current_keys in *.
  rewrite changed_keys_swap.
  match goal with
  | |- context [changed_loop d v ?ch ?w] =>
      destruct (changed_loop_some d v ch w) as [w' Hw]
  end.
  - intros p Hp.
    destruct (changed_warnings v d p) as [x|] eqn:E.
    + unfold changed_warnings in *.
      apply field_warnings_swap in E as [x' E]. eauto.
    + erewrite changed_loop_none in Hr by eassumption. discriminate.
  - rewrite Hw. eexists. split; [reflexivity|]. simpl.
    rewrite Ec, Ed, En. auto.
Qed.

Lemma diff_swapped_witness :
  exists r',
    diff example_current example_baseline = Some r'
    /\ deletedFiles r' = ["/data/c.txt"]
    /\ newFiles r' = ["/data/b.txt"]
    /\ changedFiles r' = ["/data/a.txt"].
Proof.
  apply (diff_swapped example_baseline example_current
           {| changedFiles := ["/data/a.txt"];
              deletedFiles := ["/data/b.txt"];
              newFiles := ["/data/c.txt"];
              warnings :=
                ["/data/b.txt is deleted"; "/data/c.txt is new";
                 "/data/a.txt access rights are different: 644 600";
                 "/data/a.txt hash is different: X W"] |}).
  vm_compute. reflexivity.
Defined.

(** X4: when a path is in both dictionaries with different lines and one of
    the two lines has fewer than seven tab-separated fields, the comparison
    indexes a vector past its end: the behaviour is undefined and no report
    is produced. *)
Theorem diff_short_line_is_undefined
    (v d : SMap.t string) (p vl dl : string) :
  SMap.find p v = Some vl -> SMap.find p d = Some dl -> vl <> dl ->
  List.length (split_tab vl) < 7 \/ List.length (split_tab dl) < 7 ->
  diff v d = None.
Proof.
  intros Fv Fd Hne Hlen. unfold diff.
  rewrite classify_baseline_keys, classify_current_keys.
  erewrite changed_loop_none; [reflexivity | |].
  - apply is_changed_In with vl dl; eassumption.
  - unfold changed_warnings.
    rewrite (at_key_find _ _ _ Fv), (at_key_find _ _ _ Fd).
    apply field_warnings_none with (i := 6) (what := " hash is different: ").
    + simpl. auto 10.
    + destruct Hlen as [H|H]; [left|right]; apply nth_error_None; lia.
Qed.

Lemma diff_short_line_is_undefined_witness :
  diff (dict_of_lines ["/data/a.txt" ++ TAB ++ "5"]) example_current = None.
Proof.
  apply (diff_short_line_is_undefined _ _ "/data/a.txt"
           ("/data/a.txt" ++ TAB ++ "5")
           ("/data/a.txt" ++ TAB ++ "5" ++ TAB ++ "alice" ++ TAB ++ "alice"
            ++ TAB ++ "600" ++ TAB ++ "1970-01-01 00:00:07" ++ TAB ++ "W"));
    try reflexivity.
  - discriminate.
  - left. vm_compute. lia.
Defined.

(** X5: a path is listed as changed as soon as its two lines differ as
    text, but only the fields 1 to 6 are compared afterwards: when the
    baseline line is the current line followed by further fields, the path
    is counted as changed and no discrepancy is reported for it. *)
Theorem changed_without_discrepancy
    (v d : SMap.t string) (p vl dl : string) (fs extra : list string) :
  SMap.find p v = Some vl -> SMap.find p d = Some dl ->
  split_tab dl = fs -> split_tab vl = (fs ++ extra)%list ->
  7 <= List.length fs -> extra <> [] ->
  changed_warnings v d p = Some []
  /\ forall r, diff v d = Some r -> In p (changedFiles r).
Proof.
  intros Fv Fd Ed Ev Hlen Hextra. split.
  - unfold changed_warnings.
    rewrite (at_key_find _ _ _ Fv), (at_key_find _ _ _ Fd), Ev, Ed.
    destruct fs as [|a0 [|a1 [|a2 [|a3 [|a4 [|a5 [|a6 rest]]]]]]];
      simpl in Hlen; try lia.
    unfold field_names, field_warnings, field_warning. simpl.
    now rewrite !String.eqb_refl.
  - intros r Hr. destruct (diff_lists _ _ _ Hr) as (-> & _ & _).
    apply is_changed_In with vl dl; try assumption.
    intros E. subst vl. rewrite Ed in Ev.
    apply (f_equal (@List.length string)) in Ev.
    rewrite length_app in Ev. destruct extra; [contradiction|].
    simpl in Ev. lia.
Qed.

Lemma changed_without_discrepancy_witness :
  changed_warnings
    (dict_of_lines [tsv_line (example_entry "/data/a.txt" "X") ++ TAB ++ "!"])
    (dict_of_lines [tsv_line (example_entry "/data/a.txt" "X")])
    "/data/a.txt"
  = Some [].
Proof.
  apply (changed_without_discrepancy
           (dict_of_lines
              [tsv_line (example_entry "/data/a.txt" "X") ++ TAB ++ "!"])
           (dict_of_lines [tsv_line (example_entry "/data/a.txt" "X")])
           "/data/a.txt"
           (tsv_line (example_entry "/data/a.txt" "X") ++ TAB ++ "!")
           (tsv_line (example_entry "/data/a.txt" "X"))
           (fields (example_entry "/data/a.txt" "X")) ["!"]);
    try reflexivity.
  discriminate.
Defined.

(** X6: against an empty baseline every key of the current dictionary is
    reported as new, and against an empty current dictionary every key of
    the baseline is reported as deleted, in key order and with one warning
    each; nothing is compared, so the lines may have any shape. *)
Theorem diff_with_empty_store (m : SMap.t string) :
  diff (SMap.empty string) m
  = Some {| changedFiles := []; deletedFiles := [];
            newFiles := map fst (SMap.elements m);
            warnings := map (fun f => f ++ " is new")
                          (map fst (SMap.elements m)) |}
  /\ diff m (SMap.empty string)
     = Some {| changedFiles := []; deletedFiles := map fst (SMap.elements m);
               newFiles := [];
               warnings := map (fun f => f ++ " is deleted")
                             (map fst (SMap.elements m)) |}.
Proof.
  split; unfold diff; rewrite classify_baseline_keys, classify_current_keys.
  - rewrite (keys_where_all (is_absent (SMap.empty string)) m)
      by reflexivity.
    reflexivity.
  - rewrite (keys_where_none (is_changed (SMap.empty string)) m)
      by reflexivity.
    rewrite (keys_where_all (is_absent (SMap.empty string)) m)
      by reflexivity.
    simpl. now rewrite app_nil_r.
Qed.

(** ** The splitting loop *)

Lemma split_fields_tab_free line :
  Forall (fun f => has_char tab f = false) (split_fields line).
Proof.
  induction line as [|c rest IH]; simpl.
  - repeat constructor.
  - destruct (Ascii.eqb c tab) eqn:Ec.
    + constructor; [reflexivity | assumption].
    + destruct (split_fields rest) as [|h t]; [repeat constructor|].
      * rewrite has_char_cons, Ec. reflexivity.
      * inversion IH; subst. constructor; [|assumption].
        rewrite has_char_cons, Ec. assumption.
Qed.

(** X7: the splitting loop of [verify] loses nothing: joining the fields of
    a line with tabs gives the line back, no field holds a tab, and there is
    always at least one field. *)
Theorem split_tab_join (line : string) :
  join_tab (split_tab line) = line
  /\ Forall (fun f => has_char tab f = false) (split_tab line)
  /\ split_tab line <> [].
Proof.
  rewrite split_tab_fields. split; [apply join_split_fields|].
  split; [apply split_fields_tab_free | apply split_fields_nonempty].
Qed.

(** ** The reading loop *)

Lemma lines_from_extract text : forall cur,
  lines_from text cur
  = match extract_line text with
    | (l, rest, true) => (cur ++ l) :: lines_from rest ""
    | (l, _, false) =>
        match cur ++ l with EmptyString => [] | s => [s] end
    end.
Proof.
  induction text as [|c text IH]; intros cur; simpl.
  - rewrite append_nil_r. now destruct cur.
  - destruct (Ascii.eqb c newline).
    + now rewrite append_nil_r.
    + rewrite IH. destruct (extract_line text) as [[l rest] dl].
      rewrite append_assoc. reflexivity.
Qed.

Lemma read_loop_all_lines fuel : forall text line d,
  String.length text < fuel ->
  read_loop fuel (good_stream text) line d
  = fold_left add_line (lines_from text "") d.
Proof.
  induction fuel as [|fuel IH]; intros text line d H; [lia|].
  cbn [read_loop]. unfold getline. simpl eofbit. simpl failbit. simpl buf.
  cbn [orb]. rewrite lines_from_extract.
  destruct (extract_line text) as [[l rest] delim] eqn:E.
  destruct delim.
  - rewrite substr_key. cbn [fold_left append].
    apply extract_line_shorter in E.
    apply (IH rest l); lia.
  - apply extract_line_all in E. subst l. cbn [append].
    destruct text as [|c text]; [reflexivity|].
    cbn [negb]. rewrite substr_key.
    destruct fuel as [|fuel]; [simpl in H; lia|]. reflexivity.
Qed.

(** X8: the reading loop of [verify] stores every line of the rest of the
    verification file, in order: the lines end at each newline, a last line
    without a newline is read too, empty lines are stored (under the empty
    key), and nothing but the end of the text stops the loop. *)
Theorem read_vFileDict_all_lines (text line : string) :
  read_vFileDict (good_stream text) line = dict_of_lines (lines_from text "").
Proof.
  unfold read_vFileDict, dict_of_lines. apply read_loop_all_lines.
  simpl. lia.
Qed.

Lemma dict_of_lines_snoc ls l :
  dict_of_lines (ls ++ [l]) = add_line (dict_of_lines ls) l.
Proof. unfold dict_of_lines. now rewrite fold_left_app. Qed.

(** X9: a key of the dictionary read from a list of lines holds the last
    line stored under it: a later line of the verification file replaces an
    earlier one with the same text before the first tab, and a key no line
    has is absent. *)
Theorem dict_of_lines_last_wins (ls : list string) (k : string) :
  SMap.find k (dict_of_lines ls) = last_with_key k ls.
Proof.
  unfold last_with_key.
  induction ls as [|l ls IH] using rev_ind; [reflexivity|].
  rewrite dict_of_lines_snoc, rev_app_distr. simpl.
  unfold add_line. rewrite SMapF.add_o, IH.
  destruct (String_as_OT.eq_dec (key_of l) k) as [E|E].
  - unfold String_as_OT.eq in E. rewrite E, String.eqb_refl. reflexivity.
  - apply String.eqb_neq in E. now rewrite E.
Qed.

(** ** The fields of a captured line *)

Lemma clean_text_spec s :
  clean_text s = true <-> has_char tab s = false /\ has_char newline s = false.
Proof.
  unfold clean_text. rewrite andb_true_iff, !negb_true_iff. reflexivity.
Qed.

Lemma string_of_uint_clean d :
  clean_text (NilEmpty.string_of_uint d) = true.
Proof.
  induction d; simpl; [reflexivity| ..];
    apply clean_text_spec in IHd as [Ht Hn];
    apply clean_text_spec; rewrite !has_char_cons, Ht, Hn; split; reflexivity.
Qed.

Lemma to_string_clean z : clean_text (to_string z) = true.
Proof.
  unfold to_string, NilZero.string_of_int, NilZero.string_of_uint.
  destruct (Z.to_int z) as [d|d].
  - destruct d; try reflexivity; apply string_of_uint_clean.
  - pose proof (string_of_uint_clean d) as H.
    apply clean_text_spec in H as [Ht Hn].
    apply clean_text_spec. rewrite !has_char_cons.
    destruct d; simpl in *; rewrite ?Ht, ?Hn; split; reflexivity.
Qed.

Lemma oct_digit_octal n : is_oct_digit (oct_digit (n mod 8)) = true.
Proof.
  assert (H : (n mod 8 < 8)%N) by (apply N.mod_lt; discriminate).
  remember (n mod 8)%N as k eqn:Ek. clear Ek.
  assert (E : (k = 0 \/ k = 1 \/ k = 2 \/ k = 3 \/ k = 4 \/ k = 5 \/ k = 6
               \/ k = 7)%N) by lia.
  destruct E as [E|[E|[E|[E|[E|[E|[E|E]]]]]]]; rewrite E; reflexivity.
Qed.

Lemma oct_loop_octal fuel : forall n acc,
  all_chars is_oct_digit acc = true ->
  all_chars is_oct_digit (oct_loop fuel n acc) = true.
Proof.
  induction fuel as [|fuel IH]; intros n acc H; simpl; [assumption|].
  assert (H' : all_chars is_oct_digit (String (oct_digit (n mod 8)) acc)
               = true).
  { cbn [all_chars]. now rewrite oct_digit_octal, H. }
  destruct (n / 8 =? 0)%N; [assumption | now apply IH].
Qed.

Lemma octal_is_clean s : all_chars is_oct_digit s = true -> clean_text s = true.
Proof.
  induction s as [|c s IH]; [reflexivity|]. cbn [all_chars].
  intros H. apply andb_true_iff in H as [Hc Hs].
  apply IH, clean_text_spec in Hs as [Ht Hn].
  apply clean_text_spec. rewrite !has_char_cons, Ht, Hn, !orb_false_r.
  unfold is_oct_digit in Hc. apply andb_true_iff in Hc as [H1 H2].
  apply N.leb_le in H1, H2.
  split; apply Ascii.eqb_neq; intros ->; simpl in *; lia.
Qed.

Lemma permission_octal (mode : Z) :
  all_chars is_oct_digit (oct (Z.land mode 511)) = true.
Proof. unfold oct. now apply oct_loop_octal. Qed.

(** X10: whatever the mode bits of an entry, its access-rights field is
    made of one to three octal digits: the mode is masked to the nine
    permission bits before it is printed. *)
Theorem permission_field_form (mode : Z) :
  let field := oct (Z.land mode (Z.lor (Z.lor S_IRWXU S_IRWXG) S_IRWXO)) in
  all_chars is_oct_digit field = true
  /\ 1 <= String.length field <= 3.
Proof.
  intros field. subst field. split.
  - apply permission_octal.
  - unfold oct. change (Z.lor (Z.lor S_IRWXU S_IRWXG) S_IRWXO) with (Z.ones 9).
    rewrite Z.land_ones by lia.
    pose proof (Z.mod_pos_bound mode (2 ^ 9) eq_refl) as Hb.
    set (n := Z.to_N (mode mod 2 ^ 9)).
    assert (Hn : (n < 512)%N) by (unfold n; lia).
    cbn [oct_loop].
    destruct (n / 8 =? 0)%N eqn:E1; [simpl; lia|].
    destruct (n / 8 / 8 =? 0)%N eqn:E2; [simpl; lia|].
    destruct (n / 8 / 8 / 8 =? 0)%N eqn:E3; [simpl; lia|].
    exfalso. apply N.eqb_neq in E3. apply E3.
    rewrite !N.Div0.div_div. apply N.div_small. simpl. lia.
Qed.

(** X11: the record of an entry holds no tab and no newline, and so is
    stored and compared as seven fields, as soon as its path, the name of
    its owner, the date text and the digest hold none: the size and the
    access rights never do. *)
Theorem captured_entry_is_clean
    (os : OS) (entry : directory_entry) (i : stat_t) (p : passwd)
    (digest : string) :
  clean_text (path entry) = true ->
  clean_text (pw_name p) = true ->
  clean_text (os_strftime os (last_write_time entry)) = true ->
  clean_text digest = true ->
  clean_entry (captured os entry i p digest) = true.
Proof.
  intros Hp Ho Hd Hg. unfold clean_entry, captured, fields. simpl.
  fold (clean_text (path entry)). fold (clean_text (pw_name p)).
  fold (clean_text (to_string (st_size i))).
  fold (clean_text (oct (Z.land (st_mode i) 511))).
  fold (clean_text (os_strftime os (last_write_time entry))).
  fold (clean_text digest).
  rewrite Hp, Ho, Hd, Hg, to_string_clean. simpl.
  rewrite octal_is_clean; [reflexivity|].
  apply (permission_octal (st_mode i)).
Qed.

Lemma captured_entry_is_clean_witness :
  clean_entry
    (captured (example_os true "/srv/snap" None)
       {| path := "/data/a.txt"; is_directory := false;
          last_write_time := 7 |}
       {| st_size := 5; st_uid := 1000; st_gid := 50; st_mode := 33188 |}
       {| pw_name := "alice" |} "5D41402ABC4B2A76B9719D911017C592")
  = true.
Proof. apply captured_entry_is_clean; reflexivity. Defined.

(** ** Failures while an entry is captured *)

Ltac assoc_normal :=
  unfold TAB, NL; repeat (rewrite !append_assoc; simpl); reflexivity.

Ltac give_state :=
  match goal with
  | |- exists s', Ok _ ?st = _ /\ _ =>
      exists st; split; [f_equal; assoc_normal | reflexivity]
  end.

(** X12: the result of [stat] is not checked. When [stat] fails on an
    entry nothing is printed, and the size and the owner are taken from what
    the global buffer [info] held before the call; no line is produced all
    the same: [last_write_time] asks for the status of the entry again and
    throws, so the call ends in an uncaught [filesystem_error] before any
    digest is computed, and leaves [info] and the output as they were. *)
Theorem createTsvString_after_failed_stat
    (os : OS) (entry : directory_entry) (hashF : string) (s : state)
    (p : passwd) :
  os_stat os (path entry) = None ->
  os_getpwuid os (st_uid (info s)) = Some p ->
  exists s',
    createTsvString os entry hashF s = Uncaught filesystem_error s'
    /\ info s' = info s /\ pw s' = Some p /\ cout s' = cout s
    /\ trace s' = (trace s ++ [EvStat (path entry)])%list.
Proof.
  intros Hst Hpw.
  unfold createTsvString, stat, entry_last_write_time, bind, log, get_info,
    getpwuid, getgrgid, pw_pw_name, ret, throw; simpl.
  rewrite Hst; simpl. rewrite Hpw; simpl.
  eexists. split; [reflexivity|]. simpl. auto.
Qed.

Lemma createTsvString_after_failed_stat_witness :
  exists s',
    createTsvString
      (with_stat (example_os true "/srv/snap" None) (fun _ => None))
      {| path := "/data/gone"; is_directory := true; last_write_time := 9 |}
      "md5"
      (set_info {| st_size := 5; st_uid := 1000; st_gid := 50;
                   st_mode := 33188 |} initial_state)
    = Uncaught filesystem_error s'
    /\ info s' = {| st_size := 5; st_uid := 1000; st_gid := 50;
                    st_mode := 33188 |}
    /\ pw s' = Some {| pw_name := "alice" |}
    /\ cout s' = []
    /\ trace s' = [EvStat "/data/gone"].
Proof.
  apply (createTsvString_after_failed_stat
           (with_stat (example_os true "/srv/snap" None) (fun _ => None))
           {| path := "/data/gone"; is_directory := true;
              last_write_time := 9 |}
           "md5"
           (set_info {| st_size := 5; st_uid := 1000; st_gid := 50;
                        st_mode := 33188 |} initial_state)
           {| pw_name := "alice" |}); reflexivity.
Defined.

(** X13: when the user database has no entry for the owner of an entry,
    [getpwuid] returns the null pointer and the line is built through it:
    the behaviour is undefined, whether [stat] succeeded or not. *)
Theorem createTsvString_unknown_owner
    (os : OS) (entry : directory_entry) (hashF : string) (s : state) :
  os_getpwuid os
    (st_uid (match os_stat os (path entry) with
             | Some i => i
             | None => info s
             end)) = None ->
  exists s', createTsvString os entry hashF s = Undefined s'.
Proof.
  intros Hpw.
  unfold createTsvString, stat, entry_last_write_time, bind, log, get_info,
    getpwuid, getgrgid, pw_pw_name, ret; simpl.
  destruct (os_stat os (path entry)); simpl; rewrite Hpw; simpl; eauto.
Qed.

Lemma createTsvString_unknown_owner_witness :
  exists s',
    createTsvString
      (with_stat (example_os true "/srv/snap" None)
         (fun _ => Some {| st_size := 5; st_uid := 7; st_gid := 50;
                           st_mode := 33188 |}))
      {| path := "/data/a.txt"; is_directory := false;
         last_write_time := 7 |}
      "md5" initial_state
    = Undefined s'.
Proof. apply createTsvString_unknown_owner. reflexivity. Defined.

(** ** Whole runs *)


Lemma written_open_same p tr acc :
  written_from (EvOpenOut p :: tr) p acc = written_from tr p (Some "").
Proof. simpl. now rewrite String.eqb_refl. Qed.

Lemma written_open_other q p tr acc :
  String.eqb q p = false ->
  written_from (EvOpenOut q :: tr) p acc = written_from tr p acc.
Proof. intros H. simpl. now rewrite H. Qed.

Lemma written_write_same p text tr acc :
  written_from (EvWrite p text :: tr) p (Some acc)
  = written_from tr p (Some (acc ++ text)).
Proof. simpl. now rewrite String.eqb_refl. Qed.

Lemma written_write_other q p text tr acc :
  String.eqb q p = false ->
  written_from (EvWrite q text :: tr) p acc = written_from tr p acc.
Proof. intros H. simpl. now rewrite H. Qed.

Lemma written_walk d p tr acc :
  written_from (EvWalk d :: tr) p acc = written_from tr p acc.
Proof. reflexivity. Qed.

Lemma written_open_in q p tr acc :
  written_from (EvOpenIn q :: tr) p acc = written_from tr p acc.
Proof. reflexivity. Qed.

Ltac written_steps :=
  repeat (rewrite written_open_same
          || rewrite written_write_same
          || rewrite written_walk
          || rewrite written_open_in
          || (rewrite written_open_other by assumption)
          || (rewrite written_write_other by assumption)).








(** X17: [verify] does not check that the monitored directory of the
    snapshot still exists. When the checks pass and the directory cannot be
    walked, the run ends in an uncaught [filesystem_error] after it opened
    the verification file; no report is written and the entries of the
    snapshot are not reported as deleted. *)
Theorem verify_vanished_directory
    (os : OS) (vFilePath rFilePath : string) (s : state)
    (vFile : istream) (line dirPath hashF : string) :
  fs_exists os vFilePath = true ->
  read_header (stream_of (fs_read os vFilePath))
  = Some (vFile, line, dirPath, hashF) ->
  contains vFilePath dirPath = false ->
  contains rFilePath dirPath = false ->
  String.eqb vFilePath rFilePath = false ->
  contains rFilePath ".txt" = true ->
  fs_walk os dirPath = None ->
  verify os vFilePath rFilePath s
  = Uncaught filesystem_error
      (add_event (EvWalk dirPath) (add_event (EvOpenIn vFilePath) s)).
Proof.
  intros He Hh Hv Hr Hne Htxt Hwalk.
  unfold verify, bind, now, when, fail_with, ifstream_open,
    recursive_directory_iterator, log, ret, throw. simpl.
  rewrite He. simpl. rewrite Hh. rewrite Hv, Hr, Hne, Htxt. simpl.
  now rewrite Hwalk.
Qed.

Lemma verify_vanished_directory_witness :
  verify (example_os true "/srv/snap" (Some (example_header "/gone" "md5")))
    "/srv/snap" "/srv/report.txt" initial_state
  = Uncaught filesystem_error
      (add_event (EvWalk "/gone") (add_event (EvOpenIn "/srv/snap")
                                     initial_state)).
Proof.
  eapply verify_vanished_directory; reflexivity.
Defined.

(** X18: [initialize] creates the verification file before it walks the
    directory. When the checks pass and the walk cannot start (the path is
    not a directory, say), the run ends in an uncaught [filesystem_error]
    and leaves a verification file that holds the header alone, the
    encoding of a snapshot without entries; the report file is not
    touched. *)
Theorem initialize_failed_walk_leaves_header
    (os : OS) (dirPath vFilePath rFilePath hashF : string) (s : state) :
  fs_exists os dirPath = true ->
  contains vFilePath dirPath = false ->
  contains rFilePath dirPath = false ->
  String.eqb vFilePath rFilePath = false ->
  contains rFilePath ".txt" = true ->
  fs_walk os dirPath = None ->
  exists s',
    initialize os dirPath vFilePath rFilePath hashF s
    = Uncaught filesystem_error s'
    /\ written (trace s') vFilePath
       = Some (encode {| monitored := dirPath; hashName := hashF;
                         entries := [] |})
    /\ written (trace s') rFilePath = written (trace s) rFilePath.
Proof.
  intros He Hv Hr Hne Htxt Hwalk.
  assert (Hrv : String.eqb rFilePath vFilePath = false)
    by now rewrite String.eqb_sym.
  unfold initialize, bind, now, when, fail_with, ofstream_open, write_endl,
    write, recursive_directory_iterator, log, ret, throw.
  rewrite He, Hv, Hr, Hne, Htxt, Hwalk. simpl.
  eexists. split; [reflexivity|].
  unfold written. cbn [trace add_event]. rewrite <- !app_assoc. cbn [app].
  rewrite !written_from_app. split.
  - written_steps. cbn [written_from]. unfold encode.
    cbn [monitored hashName entries map unlines fold_right].
    f_equal. unfold NL. repeat (rewrite !append_assoc; simpl). reflexivity.
  - written_steps. reflexivity.
Qed.

Lemma initialize_failed_walk_leaves_header_witness :
  exists s',
    initialize (example_os true "/data/a.txt" None)
      "/data/a.txt" "/srv/snap" "/srv/report.txt" "md5" initial_state
    = Uncaught filesystem_error s'
    /\ written (trace s') "/srv/snap"
       = Some (encode {| monitored := "/data/a.txt"; hashName := "md5";
                         entries := [] |})
    /\ written (trace s') "/srv/report.txt"
       = written (trace initial_state) "/srv/report.txt".
Proof.
  apply initialize_failed_walk_leaves_header; reflexivity.
Defined.

Lemma extract_line_no_newline text :
  has_char newline text = false -> extract_line text = (text, "", false).
Proof.
  induction text as [|c text IH]; intros H; [reflexivity|].
  rewrite has_char_cons in H. apply orb_false_iff in H as [Hc Ht].
  simpl. now rewrite Hc, (IH Ht).
Qed.

Lemma read_header_short text :
  has_char newline text = false -> String.length text < 11 ->
  read_header (stream_of (Some text)) = None.
Proof.
  intros Hn Hlen. unfold read_header, getline, stream_of. simpl.
  rewrite (extract_line_no_newline _ Hn).
  destruct text as [|c text]; simpl; [reflexivity|].
  unfold substr. apply Nat.ltb_lt in Hlen. simpl in Hlen.
  cbn [String.length]. now rewrite Hlen.
Qed.

(** X19: a verification file that exists but cannot be opened, or that
    holds a single line of fewer than 11 characters (the empty file, for
    one), makes [verify] end in an uncaught [std::out_of_range] right after
    it opened the file: no message is printed and nothing is written. *)
Theorem verify_unreadable_snapshot
    (os : OS) (vFilePath rFilePath : string) (s : state) :
  fs_exists os vFilePath = true ->
  fs_read os vFilePath = None
  \/ (exists text, fs_read os vFilePath = Some text
                   /\ has_char newline text = false
                   /\ String.length text < 11) ->
  verify os vFilePath rFilePath s
  = Uncaught out_of_range (add_event (EvOpenIn vFilePath) s).
Proof.
  intros He H. apply verify_bad_header; [assumption|].
  destruct H as [-> | (text & -> & Hn & Hlen)]; [reflexivity|].
  now apply read_header_short.
Qed.

Lemma verify_unreadable_snapshot_witness :
  verify (example_os true "/srv/snap" (Some "")) "/srv/snap"
    "/srv/report.txt" initial_state
  = Uncaught out_of_range (add_event (EvOpenIn "/srv/snap") initial_state).
Proof.
  apply verify_unreadable_snapshot; [reflexivity|].
  right. exists "". repeat split. simpl. lia.
Defined.

Lemma contains_empty s : contains s "" = true.
Proof. unfold contains. now destruct s. Qed.

(** X20: a verification file whose second line is exactly [Directory: ]
    names the empty path, which every path contains: the run is rejected
    with the message that the verification file is inside the monitored
    directory, whatever the two paths are. *)
Theorem verify_empty_directory_line
    (os : OS) (vFilePath rFilePath : string) (s : state)
    (vFile : istream) (line hashF : string) :
  fs_exists os vFilePath = true ->
  read_header (stream_of (fs_read os vFilePath))
  = Some (vFile, line, "", hashF) ->
  verify os vFilePath rFilePath s
  = Exit EXIT_FAILURE
      (add_cout
         "The path of verification file is inside the monitored directory"
         (add_event (EvOpenIn vFilePath) s)).
Proof.
  intros He Hh. eapply verify_vfile_inside; eauto. apply contains_empty.
Qed.

Lemma verify_empty_directory_line_witness :
  verify (example_os true "/srv/snap" (Some (example_header "" "md5")))
    "/srv/snap" "/srv/report.txt" initial_state
  = Exit EXIT_FAILURE
      (add_cout
         "The path of verification file is inside the monitored directory"
         (add_event (EvOpenIn "/srv/snap") initial_state)).
Proof. eapply verify_empty_directory_line; reflexivity. Defined.

(** ** What a run writes *)

Section Within.

Variable allowed : list string.

Lemma within_same {A} (m : M A) :
  (forall s, trace (final_state (m s)) = trace s) -> within allowed m.
Proof.
  intros H s. exists []. rewrite app_nil_r. split; [apply H | constructor].
Qed.

Lemma within_ret {A} (a : A) : within allowed (ret a).
Proof. now apply within_same. Qed.

Lemma within_exit {A} c : within allowed (@exit A c).
Proof. now apply within_same. Qed.

Lemma within_throw {A} e : within allowed (@throw A e).
Proof. now apply within_same. Qed.

Lemma within_undefined {A} : within allowed (@undefined A).
Proof. now apply within_same. Qed.

Lemma within_cout_endl msg : within allowed (cout_endl msg).
Proof. now apply within_same. Qed.

Lemma within_log e : writes_within allowed e -> within allowed (log e).
Proof. intros H s. exists [e]. split; [reflexivity | now repeat constructor]. Qed.

Lemma within_bind {A B} (m : M A) (k : A -> M B) :
  within allowed m -> (forall a, within allowed (k a)) ->
  within allowed (bind m k).
Proof.
  intros Hm Hk s. unfold bind. specialize (Hm s).
  destruct (m s) as [a s1|c s1|e s1|s1]; try exact Hm.
  destruct Hm as (evs1 & Ht1 & Hf1). simpl in Ht1.
  destruct (Hk a s1) as (evs2 & Ht2 & Hf2).
  exists (evs1 ++ evs2)%list. split.
  - now rewrite Ht2, Ht1, app_assoc.
  - now apply Forall_app.
Qed.

Lemma within_when c m : within allowed m -> within allowed (when c m).
Proof. intros H. destruct c; [exact H | apply within_ret]. Qed.

Lemma within_fail_with {A} msg : within allowed (@fail_with A msg).
Proof.
  apply within_bind; [apply within_cout_endl | intros; apply within_exit].
Qed.

Variable os : OS.

Lemma within_now : within allowed (now os).
Proof. now apply within_same. Qed.

Lemma within_createTsvString entry hashF :
  within allowed (createTsvString os entry hashF).
Proof.
  unfold createTsvString, stat, hashFile, entry_last_write_time.
  repeat first
    [ apply within_bind; [|intros]
    | apply within_log; exact I
    | apply within_ret
    | apply within_fail_with
    | (apply within_same; intros s;
       unfold getpwuid, getgrgid, get_info, pw_pw_name;
       simpl; try reflexivity;
       match goal with
       | |- context [match ?x with _ => _ end] => now destruct x
       end)
    | match goal with
      | |- within _ (if ?b then _ else _) => destruct b
      end ].
Qed.

Lemma within_initialize_loop v hashF es : forall fileNum dirNum,
  In v allowed -> within allowed (initialize_loop os es v hashF fileNum dirNum).
Proof.
  induction es as [|entry es IH]; intros fileNum dirNum Hv; simpl.
  - apply within_ret.
  - apply within_bind; [apply within_createTsvString | intros line].
    apply within_bind; [now apply within_log | intros _].
    destruct (is_directory entry); now apply IH.
Qed.

Lemma within_verify_loop hashF es : forall d fileNum dirNum,
  within allowed (verify_loop os es hashF d fileNum dirNum).
Proof.
  induction es as [|entry es IH]; intros d fileNum dirNum; simpl.
  - apply within_ret.
  - apply within_bind; [apply within_createTsvString | intros line].
    destruct (is_directory entry); apply IH.
Qed.

Lemma within_write_lines p ls :
  In p allowed -> within allowed (write_lines p ls).
Proof.
  intros Hp. induction ls as [|l ls IH]; simpl.
  - apply within_ret.
  - apply within_bind; [now apply within_log | intros _; exact IH].
Qed.

End Within.

Ltac within_steps :=
  repeat first
    [ apply within_fail_with
    | apply within_cout_endl
    | apply within_exit
    | apply within_bind; [|intros]
    | apply within_now
    | apply within_when
    | apply within_ret
    | apply within_throw
    | apply within_undefined
    | apply within_log; simpl; tauto
    | apply within_initialize_loop; simpl; tauto
    | apply within_verify_loop
    | apply within_write_lines; simpl; tauto
    | match goal with
      | |- within _ (match ?x with _ => _ end) => destruct x
      | |- within _ (let '(_, _) := ?x in _) => destruct x
      end ].

Lemma within_initialize os dirPath vFilePath rFilePath hashF :
  within [vFilePath; rFilePath]
    (initialize os dirPath vFilePath rFilePath hashF).
Proof.
  unfold initialize, ofstream_open, write_endl, write,
    recursive_directory_iterator.
  within_steps.
Qed.

Lemma within_verify os vFilePath rFilePath :
  within [rFilePath] (verify os vFilePath rFilePath).
Proof.
  unfold verify, ifstream_open, ofstream_open, write_endl, write,
    recursive_directory_iterator.
  within_steps.
Qed.

Lemma written_untouched allowed evs q : forall acc,
  Forall (writes_within allowed) evs -> ~ In q allowed ->
  written_from evs q acc = acc.
Proof.
  induction evs as [|e evs IH]; intros acc Hf Hq; [reflexivity|].
  inversion Hf as [|? ? He Hf']; subst.
  destruct e; simpl in *; try now apply IH.
  - destruct (String.eqb_spec p q) as [->|_]; [contradiction | now apply IH].
  - destruct (String.eqb_spec p q) as [->|_]; [contradiction | now apply IH].
Qed.

Lemma within_written {A} allowed (m : M A) s q :
  within allowed m -> ~ In q allowed ->
  written (trace (final_state (m s))) q = written (trace s) q.
Proof.
  intros Hm Hq. destruct (Hm s) as (evs & Ht & Hf).
  unfold written. rewrite Ht, written_from_app.
  now apply written_untouched with allowed.
Qed.

(** X21: a verification creates and writes no file but its report file,
    however it ends: the events of the run that open a file for writing or
    write to one all name the report path, so the text of every other file,
    the verification file among them, is what it was before the run. *)
Theorem verify_writes_report_only
    (os : OS) (vFilePath rFilePath : string) (s : state) :
  extends_within [rFilePath] (trace s) (verify os vFilePath rFilePath s)
  /\ forall q,
       q <> rFilePath ->
       written (trace (final_state (verify os vFilePath rFilePath s))) q
       = written (trace s) q.
Proof.
  split; [apply within_verify|].
  intros q Hq. apply within_written with [rFilePath].
  - apply within_verify.
  - simpl. intuition.
Qed.

Lemma verify_writes_report_only_witness :
  written
    (trace (final_state
              (verify
                 (example_os true "/srv/snap" (Some (encode example_base)))
                 "/srv/snap" "/srv/report.txt" initial_state)))
    "/srv/snap"
  = written (trace initial_state) "/srv/snap".
Proof.
  apply (proj2 (verify_writes_report_only
                  (example_os true "/srv/snap" (Some (encode example_base)))
                  "/srv/snap" "/srv/report.txt" initial_state)).
  discriminate.
Defined.

(** X22: an initialization creates and writes no file but its verification
    file and its report file, however it ends; the text of every other file
    is what it was before the run. *)
Theorem initialize_writes_its_two_files_only
    (os : OS) (dirPath vFilePath rFilePath hashF : string) (s : state) :
  extends_within [vFilePath; rFilePath] (trace s)
    (initialize os dirPath vFilePath rFilePath hashF s)
  /\ forall q,
       q <> vFilePath -> q <> rFilePath ->
       written
         (trace (final_state
                   (initialize os dirPath vFilePath rFilePath hashF s))) q
       = written (trace s) q.
Proof.
  split; [apply within_initialize|].
  intros q Hv Hr. apply within_written with [vFilePath; rFilePath].
  - apply within_initialize.
  - simpl. intuition.
Qed.

Lemma initialize_writes_its_two_files_only_witness :
  written
    (trace (final_state
              (initialize (example_os true "/srv/snap" None)
                 "/data" "/srv/snap" "/srv/report.txt" "md5" initial_state)))
    "/data/a.txt"
  = written (trace initial_state) "/data/a.txt".
Proof.
  apply (proj2 (initialize_writes_its_two_files_only
                  (example_os true "/srv/snap" None)
                  "/data" "/srv/snap" "/srv/report.txt" "md5" initial_state));
    discriminate.
Defined.

(** ** What a run prints *)

Lemma quiet_same {A} (m : M A) :
  (forall s, match m s with
             | Exit _ _ => False
             | r => cout (final_state r) = cout s
             end) ->
  quiet m.
Proof.
  intros H s. specialize (H s). unfold quiet_or_failed.
  destruct (m s); [assumption | contradiction | assumption | assumption].
Qed.

Lemma quiet_ret {A} (a : A) : quiet (ret a).
Proof. now apply quiet_same. Qed.

Lemma quiet_throw {A} e : quiet (@throw A e).
Proof. now apply quiet_same. Qed.

Lemma quiet_undefined {A} : quiet (@undefined A).
Proof. now apply quiet_same. Qed.

Lemma quiet_log e : quiet (log e).
Proof. now apply quiet_same. Qed.

Lemma quiet_fail_with {A} msg : quiet (@fail_with A msg).
Proof. intros s. simpl. split; [reflexivity | now exists msg]. Qed.

Lemma quiet_bind {A B} (m : M A) (k : A -> M B) :
  quiet m -> (forall a, quiet (k a)) -> quiet (bind m k).
Proof.
  intros Hm Hk s. unfold bind. specialize (Hm s).
  destruct (m s) as [a s1|c s1|e s1|s1]; try exact Hm.
  simpl in Hm. rewrite <- Hm. apply Hk.
Qed.

Lemma quiet_when c m : quiet m -> quiet (when c m).
Proof. intros H. destruct c; [exact H | apply quiet_ret]. Qed.

Lemma quiet_now os : quiet (now os).
Proof. now apply quiet_same. Qed.

Lemma quiet_createTsvString os entry hashF :
  quiet (createTsvString os entry hashF).
Proof.
  unfold createTsvString, stat, hashFile, entry_last_write_time.
  repeat first
    [ apply quiet_fail_with
    | apply quiet_bind; [|intros]
    | apply quiet_log
    | apply quiet_ret
    | (apply quiet_same; intros s;
       unfold getpwuid, getgrgid, get_info, pw_pw_name;
       simpl; try reflexivity;
       match goal with
       | |- context [match ?x with _ => _ end] => now destruct x
       end)
    | match goal with
      | |- quiet (if ?b then _ else _) => destruct b
      end ].
Qed.

Lemma quiet_initialize_loop os v hashF es : forall fileNum dirNum,
  quiet (initialize_loop os es v hashF fileNum dirNum).
Proof.
  induction es as [|entry es IH]; intros fileNum dirNum; simpl.
  - apply quiet_ret.
  - apply quiet_bind; [apply quiet_createTsvString | intros line].
    apply quiet_bind; [apply quiet_log | intros _].
    destruct (is_directory entry); apply IH.
Qed.

Lemma quiet_verify_loop os hashF es : forall d fileNum dirNum,
  quiet (verify_loop os es hashF d fileNum dirNum).
Proof.
  induction es as [|entry es IH]; intros d fileNum dirNum; simpl.
  - apply quiet_ret.
  - apply quiet_bind; [apply quiet_createTsvString | intros line].
    destruct (is_directory entry); apply IH.
Qed.

Lemma quiet_write_lines p ls : quiet (write_lines p ls).
Proof.
  induction ls as [|l ls IH]; simpl.
  - apply quiet_ret.
  - apply quiet_bind; [apply quiet_log | intros _; exact IH].
Qed.

Ltac quiet_steps :=
  repeat first
    [ apply quiet_fail_with
    | apply quiet_bind; [|intros]
    | apply quiet_now
    | apply quiet_when
    | apply quiet_ret
    | apply quiet_throw
    | apply quiet_undefined
    | apply quiet_log
    | apply quiet_initialize_loop
    | apply quiet_verify_loop
    | apply quiet_write_lines
    | match goal with
      | |- quiet (match ?x with _ => _ end) => destruct x
      | |- quiet (let '(_, _) := ?x in _) => destruct x
      end ].

(** X23: [initialize] and [verify] print nothing on the standard output
    unless they stop by [exit]; when they do, the status is [EXIT_FAILURE]
    and exactly one line was printed. A run that returns, throws or runs
    into undefined behaviour leaves the output as it was. *)
Theorem initialize_and_verify_print_on_failure_only
    (os : OS) (dirPath vFilePath rFilePath hashF : string) (s : state) :
  quiet_or_failed (cout s)
    (initialize os dirPath vFilePath rFilePath hashF s)
  /\ quiet_or_failed (cout s) (verify os vFilePath rFilePath s).
Proof.
  split.
  - revert s. change (quiet (initialize os dirPath vFilePath rFilePath hashF)).
    unfold initialize, ofstream_open, write_endl, write,
      recursive_directory_iterator.
    quiet_steps.
  - revert s. change (quiet (verify os vFilePath rFilePath)).
    unfold verify, ifstream_open, ofstream_open, write_endl, write,
      recursive_directory_iterator.
    quiet_steps.
Qed.

(** ** The command line *)

Lemma never_returns_bind_l {A B} (m : M A) (k : A -> M B) :
  never_returns m -> never_returns (bind m k).
Proof.
  intros H s. unfold bind. specialize (H s). now destruct (m s).
Qed.

Lemma never_returns_bind_r {A B} (m : M A) (k : A -> M B) :
  (forall a, never_returns (k a)) -> never_returns (bind m k).
Proof.
  intros H s. unfold bind. destruct (m s); try exact I. apply H.
Qed.

Lemma never_returns_exit {A} c : never_returns (@exit A c).
Proof. intros s. exact I. Qed.

Lemma never_returns_fail_with {A} msg : never_returns (@fail_with A msg).
Proof. intros s. exact I. Qed.

Lemma never_returns_when_seq {B} c m (k : unit -> M B) :
  never_returns m -> never_returns (k tt) ->
  never_returns (bind (when c m) k).
Proof.
  intros Hm Hk. destruct c; simpl.
  - now apply never_returns_bind_l.
  - intros s. apply Hk.
Qed.

Lemma main_switch_mode opt optarg l s l' s' :
  main_switch opt optarg l s = Ok l' s' ->
  (0 <= mode l <= 3)%Z -> (0 <= mode l' <= 3)%Z.
Proof.
  unfold main_switch, ret, fail_with, bind, cout_endl, exit.
  repeat match goal with
         | |- context [if ?b then _ else _] => destruct b
         end; intros H; inversion H; simpl; lia.
Qed.

Lemma main_options_mode opts : forall l s l' s',
  main_options opts l s = Ok l' s' ->
  (0 <= mode l <= 3)%Z -> (0 <= mode l' <= 3)%Z.
Proof.
  induction opts as [|[opt optarg] rest IH]; intros l s l' s' H Hm;
    simpl in H.
  - now inversion H; subst.
  - unfold bind in H.
    destruct (main_switch opt optarg l s) as [l1 s1| | |] eqn:E;
      try discriminate.
    apply main_switch_mode in E; [|assumption]. eauto.
Qed.

(** X24: [main] never returns to its caller: whatever the options, the run
    ends by [exit], by an uncaught exception or in undefined behaviour. *)
Theorem main_never_returns
    (os : OS) (opts : list (ascii * string)) (s : state) :
  match main os opts s with Ok _ _ => False | _ => True end.
Proof.
  revert s. change (never_returns (main os opts)).
  unfold main. intros s. unfold bind at 1.
  destruct (main_options opts main_init s) as [l s1| | |] eqn:E;
    try exact I.
  apply main_options_mode in E; [|simpl; lia].
  revert s1.
  match goal with
  | |- forall s1, match ?m s1 with _ => _ end => change (never_returns m)
  end.
  assert (Hm : mode l = 0%Z \/ mode l = 1%Z \/ mode l = 2%Z \/ mode l = 3%Z)
    by lia.
  destruct Hm as [Hm|[Hm|[Hm|Hm]]]; rewrite Hm;
    cbn -[when String.eqb initialize verify help];
    repeat first
      [ apply never_returns_fail_with
      | apply never_returns_exit
      | match goal with
        | |- never_returns (bind (when true _) _) =>
            apply never_returns_bind_l; unfold when at 1
        | |- never_returns (when true _) => unfold when at 1
        | |- never_returns (bind (when _ _) _) =>
            apply never_returns_when_seq
        | |- never_returns (bind _ _) =>
            apply never_returns_bind_r; intros
        end ].
Qed.

(** X25: in verification mode the directory and the hash function given on
    the command line play no part: two command lines that both select the
    verification mode with the same verification file and the same report
    file give the same run, whatever their [-D] and [-H] options are. *)
Theorem main_verification_ignores_D_and_H
    (os : OS) (opts opts' : list (ascii * string)) (l l' : locals)
    (s : state) :
  main_options opts main_init s = Ok l s ->
  main_options opts' main_init s = Ok l' s ->
  mode l = 2%Z -> mode l' = 2%Z ->
  vFilePath l = vFilePath l' -> rFilePath l = rFilePath l' ->
  main os opts s = main os opts' s.
Proof.
  intros H H' Hm Hm' Hv Hr.
  unfold main, bind at 1. rewrite H. symmetry.
  unfold bind at 1. rewrite H'. rewrite Hm, Hm', Hv, Hr.
  cbn -[when String.eqb initialize verify help].
  unfold when. reflexivity.
Qed.

Lemma main_verification_ignores_D_and_H_witness :
  main (example_os true "/srv/snap" (Some (encode example_base)))
    [("v"%char, ""); ("V"%char, "/srv/snap"); ("R"%char, "/srv/report.txt")]
    initial_state
  = main (example_os true "/srv/snap" (Some (encode example_base)))
      [("D"%char, "/elsewhere"); ("H"%char, "sha256"); ("v"%char, "");
       ("V"%char, "/srv/snap"); ("R"%char, "/srv/report.txt")]
      initial_state.
Proof.
  apply (main_verification_ignores_D_and_H _ _ _
           {| mode := 2; dirPath := ""; vFilePath := "/srv/snap";
              rFilePath := "/srv/report.txt"; hashF := "" |}
           {| mode := 2; dirPath := "/elsewhere"; vFilePath := "/srv/snap";
              rFilePath := "/srv/report.txt"; hashF := "sha256" |});
    reflexivity.
Defined.

(** ** Groups *)

Ltac same_close :=
  unfold same_outcome, same_but_group; simpl; repeat split; congruence.

Lemma sim_ret {A} (a : A) : sim (ret a) (ret a).
Proof. intros s s' H. simpl. auto. Qed.

Lemma sim_exit {A} c : sim (@exit A c) (exit c).
Proof. intros s s' H. simpl. auto. Qed.

Lemma sim_throw {A} e : sim (@throw A e) (throw e).
Proof. intros s s' H. simpl. auto. Qed.

Lemma sim_undefined {A} : sim (@undefined A) undefined.
Proof. intros s s' H. exact H. Qed.

Lemma sim_log e : sim (log e) (log e).
Proof.
  intros s s' (H1 & H2 & H3 & H4 & H5 & H6). simpl.
  unfold same_but_group. simpl. rewrite H6. auto 10.
Qed.

Lemma sim_cout_endl msg : sim (cout_endl msg) (cout_endl msg).
Proof.
  intros s s' (H1 & H2 & H3 & H4 & H5 & H6). simpl.
  unfold same_but_group. simpl. rewrite H5. auto 10.
Qed.

Lemma sim_bind {A B} (m m' : M A) (k k' : A -> M B) :
  sim m m' -> (forall a, sim (k a) (k' a)) -> sim (bind m k) (bind m' k').
Proof.
  intros Hm Hk s s' H. unfold bind. specialize (Hm s s' H).
  destruct (m s), (m' s'); simpl in Hm; try contradiction; try exact Hm.
  destruct Hm as [-> Hs]. now apply Hk.
Qed.

Lemma sim_fail_with {A} msg : sim (@fail_with A msg) (fail_with msg).
Proof.
  apply sim_bind; [apply sim_cout_endl | intros; apply sim_exit].
Qed.

Lemma sim_when c m m' : sim m m' -> sim (when c m) (when c m').
Proof. intros H. destruct c; [exact H | apply sim_ret]. Qed.

Section Regroup.

Variables (os : OS) (gid : string -> Z) (groups : Z -> option group).

Let os' := regroup os gid groups.

Lemma sim_now : sim (now os) (now os').
Proof.
  intros s s' H. unfold now. simpl.
  destruct H as (H1 & H2 & H3 & H4 & H5 & H6). rewrite H6.
  unfold same_but_group. auto 10.
Qed.

Lemma sim_createTsvString entry hashF :
  sim (createTsvString os entry hashF) (createTsvString os' entry hashF).
Proof.
  intros s s' (H1 & H2 & H3 & H4 & H5 & H6).
  unfold createTsvString, stat, hashFile, entry_last_write_time, fail_with,
    bind, log, get_info, getpwuid, getgrgid, pw_pw_name, ret, throw,
    cout_endl, exit.
  simpl.
  destruct (os_stat os (path entry)) as [i|]; simpl.
  - destruct (os_getpwuid os (st_uid i)) as [p|]; simpl.
    + destruct (is_directory entry); simpl.
      * same_close.
      * destruct (String.eqb hashF "md5");
          [|destruct (String.eqb hashF "sha1")];
          same_close.
    + same_close.
  - rewrite <- ?H1, <- ?H2, <- ?H3.
    destruct (os_getpwuid os (st_uid (info s))) as [p|]; simpl; same_close.
Qed.

Lemma sim_initialize_loop v hashF es : forall fileNum dirNum,
  sim (initialize_loop os es v hashF fileNum dirNum)
      (initialize_loop os' es v hashF fileNum dirNum).
Proof.
  induction es as [|entry es IH]; intros fileNum dirNum; simpl.
  - apply sim_ret.
  - apply sim_bind; [apply sim_createTsvString | intros line].
    apply sim_bind; [apply sim_log | intros _].
    destruct (is_directory entry); apply IH.
Qed.

Lemma sim_verify_loop hashF es : forall d fileNum dirNum,
  sim (verify_loop os es hashF d fileNum dirNum)
      (verify_loop os' es hashF d fileNum dirNum).
Proof.
  induction es as [|entry es IH]; intros d fileNum dirNum; simpl.
  - apply sim_ret.
  - apply sim_bind; [apply sim_createTsvString | intros line].
    destruct (is_directory entry); apply IH.
Qed.

Lemma sim_write_lines p ls : sim (write_lines p ls) (write_lines p ls).
Proof.
  induction ls as [|l ls IH]; simpl.
  - apply sim_ret.
  - apply sim_bind; [apply sim_log | intros _; exact IH].
Qed.

Ltac sim_steps :=
  repeat first
    [ apply sim_fail_with
    | apply sim_now
    | apply sim_when
    | apply sim_ret
    | apply sim_throw
    | apply sim_undefined
    | apply sim_log
    | apply sim_initialize_loop
    | apply sim_verify_loop
    | apply sim_write_lines
    | match goal with
      | |- sim (bind _ _) (bind _ _) => apply sim_bind; [|intros]
      | |- sim (match ?x with _ => _ end) (match ?x with _ => _ end) =>
          destruct x
      | |- sim (let '(_, _) := ?x in _) (let '(_, _) := ?x in _) =>
          destruct x
      end ].

Lemma sim_initialize dirPath vFilePath rFilePath hashF :
  sim (initialize os dirPath vFilePath rFilePath hashF)
      (initialize os' dirPath vFilePath rFilePath hashF).
Proof.
  unfold initialize, ofstream_open, write_endl, write,
    recursive_directory_iterator.
  cbn [os' regroup fs_exists fs_walk].
  sim_steps.
Qed.

Lemma sim_verify vFilePath rFilePath :
  sim (verify os vFilePath rFilePath) (verify os' vFilePath rFilePath).
Proof.
  unfold verify, ifstream_open, ofstream_open, write_endl, write,
    recursive_directory_iterator.
  cbn [os' regroup fs_exists fs_walk fs_read].
  sim_steps.
Qed.

End Regroup.

Lemma same_but_group_refl s : same_but_group s s.
Proof. unfold same_but_group. auto 10. Qed.

(** X26: the group of an entry plays no part in a run. On a machine where
    the entries have other groups and the group database is another one,
    [initialize] and [verify] end in the same way, print the same lines and
    leave the same events, hence the same verification file and the same
    report: a change of group is never detected. *)
Theorem groups_play_no_part
    (os : OS) (gid : string -> Z) (groups : Z -> option group)
    (dirPath vFilePath rFilePath hashF : string) (s : state) :
  same_outcome
    (initialize os dirPath vFilePath rFilePath hashF s)
    (initialize (regroup os gid groups) dirPath vFilePath rFilePath hashF s)
  /\ same_outcome
       (verify os vFilePath rFilePath s)
       (verify (regroup os gid groups) vFilePath rFilePath s).
Proof.
  split.
  - apply sim_initialize, same_but_group_refl.
  - apply sim_verify, same_but_group_refl.
Qed.
